(** * BlogList: a shallow embedding of [src/js/BlogList.js]

    The blog list component fetches a list of blog entries (through a
    10-minute [localStorage] cache and a three-attempt retry loop), and
    sorts, filters, searches and renders them.  This development embeds the
    component's methods as functions over an explicit world (the fields of
    [this], the DOM nodes the component owns, the browser's storage, clock
    and network) and proves the properties stated about them.

    Conventions of the embedding:
    - a JavaScript number is an integer [Z] or [NaN]; the numbers the
      component computes with (epoch milliseconds, minutes, retry delays)
      are integers far below 2^53, where double arithmetic is exact;
    - strings are sequences of 8-bit code units; case mapping and white
      space are those of ASCII;
    - blog entries are records at the types of the data the endpoint
      serves: every field may be missing ([None] is [undefined]);
    - an exception is a value of the monad, and the state written before a
      [throw] stays written, as in JavaScript. *)

From Stdlib Require Import ZArith List String Ascii Bool Lia Permutation.
From Stdlib Require Import DecimalString DecimalZ Sorted.
Import ListNotations.

Local Open Scope string_scope.
Local Open Scope Z_scope.

(* ================================================================== *)
(** ** The JavaScript built-ins the component calls *)
(* ================================================================== *)

Module JS.

(** Numbers: an integer or [NaN]. *)
Inductive number : Type :=
| Num (z : Z)
| NaN.

Definition MAX_SAFE_INTEGER : Z := 9007199254740991.

(** [a - b] *)
Definition sub (a b : number) : number :=
  match a, b with
  | Num x, Num y => Num (x - y)
  | _, _ => NaN
  end.

(** [a < b]; every comparison with [NaN] is false. *)
Definition lt (a b : number) : bool :=
  match a, b with
  | Num x, Num y => x <? y
  | _, _ => false
  end.

(** *** Characters *)

Definition code (c : ascii) : N := N_of_ascii c.

(** [\d] *)
Definition is_digit (c : ascii) : bool :=
  ((48 <=? code c) && (code c <=? 57))%N.

(** [\s], and the characters [trim] strips: TAB, LF, VT, FF, CR, SPACE. *)
Definition is_space (c : ascii) : bool :=
  (((9 <=? code c) && (code c <=? 13)) || (code c =? 32))%N.

Definition lower (c : ascii) : ascii :=
  if ((65 <=? code c) && (code c <=? 90))%N
  then ascii_of_N (code c + 32) else c.

Definition digit_value (c : ascii) : Z := Z.of_N (code c) - 48.

(** *** Strings *)

Fixpoint toLowerCase (s : string) : string :=
  match s with
  | EmptyString => EmptyString
  | String c r => String (lower c) (toLowerCase r)
  end.

Fixpoint trimStart (s : string) : string :=
  match s with
  | String c r => if is_space c then trimStart r else s
  | EmptyString => EmptyString
  end.

(** [trimEnd]: a character is dropped when it is white space and all that
    follows it is dropped too. *)
Fixpoint trimEnd (s : string) : string :=
  match s with
  | EmptyString => EmptyString
  | String c r =>
      match trimEnd r with
      | EmptyString => if is_space c then EmptyString else String c EmptyString
      | r' => String c r'
      end
  end.

Definition trim (s : string) : string := trimEnd (trimStart s).

(** [s.startsWith(p)] *)
Fixpoint startsWith (p s : string) : bool :=
  match p, s with
  | EmptyString, _ => true
  | String a p', String b s' => Ascii.eqb a b && startsWith p' s'
  | String _ _, EmptyString => false
  end.

(** [s.includes(q)]: [q] occurs in [s] as a substring. *)
Fixpoint includes (s q : string) : bool :=
  startsWith q s ||
  match s with
  | EmptyString => false
  | String _ r => includes r q
  end.

(** [arr.includes(x)] on an array of strings. *)
Definition array_includes (arr : list string) (x : string) : bool :=
  existsb (String.eqb x) arr.

(** A truthy string is a non-empty one; [s || d]. *)
Definition truthy (s : string) : bool :=
  match s with EmptyString => false | _ => true end.

(** [v || ""] for a field that holds a string or is missing. *)
Definition or_empty (v : option string) : string :=
  match v with
  | Some s => if truthy s then s else ""
  | None => ""
  end.

(** [String.prototype.toString] *)
Definition toString (s : string) : string := s.

(** Number to string, as a template literal does it for an integer. *)
Definition number_toString (z : Z) : string :=
  NilZero.string_of_int (Z.to_int z).

(** *** [parseInt(s, 10)]

    Leading white space is skipped, an optional sign is read, then the
    longest run of decimal digits; without a digit the result is [NaN]. *)
Fixpoint digits_value (acc : Z) (s : string) : Z :=
  match s with
  | String c r => if is_digit c then digits_value (10 * acc + digit_value c) r else acc
  | EmptyString => acc
  end.

Definition starts_with_digit (s : string) : bool :=
  match s with String c _ => is_digit c | EmptyString => false end.

Definition parseInt (s : string) : number :=
  match trimStart s with
  | String "-" r => if starts_with_digit r then Num (- digits_value 0 r) else NaN
  | String "+" r => if starts_with_digit r then Num (digits_value 0 r) else NaN
  | r => if starts_with_digit r then Num (digits_value 0 r) else NaN
  end.

(** [parseInt(x, 10)] where [x] may be [undefined]: the argument is first
    converted to a string, and ["undefined"] has no digit. *)
Definition parseInt_arg (x : option string) : number :=
  match x with
  | Some s => parseInt s
  | None => parseInt "undefined"
  end.

(** *** Regular expression matches

    The result of [String.prototype.match] without the [g] flag: [null], or
    an array whose element 0 is the matched text and whose further elements
    are the capture groups. *)
Definition match_result : Type := option (list string).

(** [m[i]] on a match array; [None] is [undefined]. *)
Definition group (m : list string) (i : nat) : option string := nth_error m i.

(** The maximal run of digits at the start of [s], and what follows it. *)
Fixpoint span_digits (s : string) : string * string :=
  match s with
  | String c r =>
      if is_digit c
      then let (d, rest) := span_digits r in (String c d, rest)
      else (EmptyString, s)
  | EmptyString => (EmptyString, EmptyString)
  end.

(** The lookahead [(?=\s*min)] under the [i] flag. *)
Definition lookahead_min (s : string) : bool :=
  startsWith "min" (toLowerCase (trimStart s)).

(** [s.match(/(\d+)(?=\s*min)/i)].  The matcher tries each start position
    from the left.  At a digit, [\d+] takes the maximal run; giving digits
    back cannot make the lookahead succeed, since what then follows is a
    digit, which is neither white space nor [m].  Group 1 is the run. *)
Fixpoint match_digits_min (s : string) : match_result :=
  match s with
  | EmptyString => None
  | String c r =>
      if is_digit c then
        let (d, rest) := span_digits s in
        if lookahead_min rest then Some [d; d] else match_digits_min r
      else match_digits_min r
  end.

(** [s.match(/\d+/)]: the first maximal run of digits.  The expression has
    no capture group, so the array has the single element 0. *)
Fixpoint match_digits (s : string) : match_result :=
  match s with
  | EmptyString => None
  | String c r =>
      if is_digit c then Some [fst (span_digits s)] else match_digits r
  end.

(** *** [Array.prototype.sort(comparefn)]

    The comparator's result [v] orders [a] before [b] when [v < 0] and
    after it when [v > 0]; [NaN] counts as [+0].  The standard requires the
    sort to be stable, which for a consistent comparator fixes the result:
    it is the one computed here by stable insertion.  (For an inconsistent
    comparator the standard leaves the order to the implementation; the
    model keeps the same insertion procedure.) *)
Section Sort.
Context {A : Type} (comparefn : A -> A -> number).

Definition sort_compare (a b : A) : Z :=
  match comparefn a b with
  | Num v => v
  | NaN => 0
  end.

(** [x] goes before the first element it does not sort after. *)
Fixpoint insert (x : A) (l : list A) : list A :=
  match l with
  | [] => [x]
  | y :: l' => if sort_compare x y <=? 0 then x :: l else y :: insert x l'
  end.

Fixpoint sort (l : list A) : list A :=
  match l with
  | [] => []
  | x :: l' => insert x (sort l')
  end.
End Sort.

(** [arr.slice(0, end)] for a non-negative [end]. *)
Definition slice0 {A : Type} (arr : list A) (e : nat) : list A := firstn e arr.

(** [arr.join("")] on an array of strings. *)
Definition join (parts : list string) : string :=
  fold_right String.append EmptyString parts.

End JS.

(* ================================================================== *)
(** ** The component *)
(* ================================================================== *)

Module BlogList.
Import JS.

(** *** Data *)

(** [reading_time] is served as a number or as free text. *)
Inductive ReadingTime : Type :=
| RTNumber (n : Z)
| RTString (s : string).

Record BlogEntry : Type := mkEntry {
  title : option string;
  author : option string;
  content : option string;
  image : option string;
  published_date : option string;
  reading_time : option ReadingTime;
  category : option string;
  tags : option (list string)
}.

(** What [JSON.parse] and [res.json()] can produce.  The arrays the
    component deals with are arrays of blog entries. *)
#[warnings="-register-all"]
Inductive Value : Type :=
| VNull
| VBoolean (b : bool)
| VNumber (n : Z)
| VString (s : string)
| VArray (entries : list BlogEntry)
| VObject (props : list (string * Value)).

Record Error : Type := mkError { message : string }.

(** A DOM node, as far as the component reads and writes it. *)
Record Element : Type := mkElement {
  classList : list string;
  textContent : string;
  innerHTML : string;
  value : string
}.

Record Event : Type := mkEvent { target : option Element }.

(** The listeners [setupEventListeners] registers. *)
Inductive Listener : Type :=
| SortChangeListener
| FilterChangeListener
| SearchInputListener (debounceMs : Z).

(** The fields of [this].  A node is [None] when [querySelector] found
    nothing ([null]). *)
Record Component : Type := mkComponent {
  listContainer : option Element;
  loadingIndicator : option Element;
  errorContainer : option Element;
  sortSelect : option Element;
  filterSelect : option Element;
  searchInput : option Element;
  apiUrl : string;
  items : list BlogEntry;
  filteredItems : list BlogEntry;
  page : nat;
  perPage : nat;
  listeners : list Listener
}.

(** An HTTP exchange: [fetch] rejects, or resolves to a response whose
    body [res.json()] decodes or rejects. *)
Inductive Body : Type :=
| BodyJson (v : Value)
| BodyInvalid (e : Error).

Inductive Response : Type :=
| Rejected (e : Error)
| Resolved (ok : bool) (body : Body).

(** [localStorage]: access may be denied, and a write may exceed the
    quota. *)
Record Storage : Type := mkStorage {
  accessible : bool;
  writable : bool;
  entries : list (string * string)
}.

(** What the component does to the outside, in order. *)
Inductive Effect : Type :=
| Fetch (url : string)
| Sleep (ms : Z).

(** The browser: storage, the clock, the network (the response to the
    n-th request, counted from 0) and the record of effects. *)
Record Browser : Type := mkBrowser {
  localStorage : Storage;
  now : Z;
  network : nat -> Response;
  requests : nat;
  log : list Effect
}.

Record World : Type := mkWorld {
  this : Component;
  browser : Browser
}.

(** *** Field updates *)

Definition set_items (v : list BlogEntry) (c : Component) : Component :=
  mkComponent (listContainer c) (loadingIndicator c) (errorContainer c)
    (sortSelect c) (filterSelect c) (searchInput c) (apiUrl c)
    v (filteredItems c) (page c) (perPage c) (listeners c).

Definition set_filteredItems (v : list BlogEntry) (c : Component) : Component :=
  mkComponent (listContainer c) (loadingIndicator c) (errorContainer c)
    (sortSelect c) (filterSelect c) (searchInput c) (apiUrl c)
    (items c) v (page c) (perPage c) (listeners c).

Definition set_page (v : nat) (c : Component) : Component :=
  mkComponent (listContainer c) (loadingIndicator c) (errorContainer c)
    (sortSelect c) (filterSelect c) (searchInput c) (apiUrl c)
    (items c) (filteredItems c) v (perPage c) (listeners c).

Definition set_listContainer (v : option Element) (c : Component) : Component :=
  mkComponent v (loadingIndicator c) (errorContainer c)
    (sortSelect c) (filterSelect c) (searchInput c) (apiUrl c)
    (items c) (filteredItems c) (page c) (perPage c) (listeners c).

Definition set_loadingIndicator (v : option Element) (c : Component) : Component :=
  mkComponent (listContainer c) v (errorContainer c)
    (sortSelect c) (filterSelect c) (searchInput c) (apiUrl c)
    (items c) (filteredItems c) (page c) (perPage c) (listeners c).

Definition set_errorContainer (v : option Element) (c : Component) : Component :=
  mkComponent (listContainer c) (loadingIndicator c) v
    (sortSelect c) (filterSelect c) (searchInput c) (apiUrl c)
    (items c) (filteredItems c) (page c) (perPage c) (listeners c).

Definition set_listeners (v : list Listener) (c : Component) : Component :=
  mkComponent (listContainer c) (loadingIndicator c) (errorContainer c)
    (sortSelect c) (filterSelect c) (searchInput c) (apiUrl c)
    (items c) (filteredItems c) (page c) (perPage c) v.

Definition set_innerHTML (v : string) (el : Element) : Element :=
  mkElement (classList el) (textContent el) v (value el).

Definition set_textContent (v : string) (el : Element) : Element :=
  mkElement (classList el) v (innerHTML el) (value el).

Definition set_classList (v : list string) (el : Element) : Element :=
  mkElement v (textContent el) (innerHTML el) (value el).

(** [classList.add(c)] and [classList.remove(c)] *)
Definition classList_add (c : string) (el : Element) : Element :=
  if array_includes (classList el) c then el
  else set_classList (classList el ++ [c]) el.

Definition classList_remove (c : string) (el : Element) : Element :=
  set_classList (filter (fun x => negb (String.eqb c x)) (classList el)) el.

Definition is_hidden (el : Element) : bool := array_includes (classList el) "hidden".

(** *** Computations: state and exceptions *)

Inductive Result (A : Type) : Type :=
| Ok (a : A)
| Throw (e : Error).
Arguments Ok {A} a.
Arguments Throw {A} e.

Definition M (A : Type) : Type := World -> Result A * World.

Definition ret {A} (a : A) : M A := fun w => (Ok a, w).

Definition throw {A} (e : Error) : M A := fun w => (Throw e, w).

Definition bind {A B} (c : M A) (k : A -> M B) : M B :=
  fun w =>
    match c w with
    | (Ok a, w') => k a w'
    | (Throw e, w') => (Throw e, w')
    end.

(** [try { c } catch (err) { h err }] *)
Definition try_catch {A} (c : M A) (h : Error -> M A) : M A :=
  fun w =>
    match c w with
    | (Ok a, w') => (Ok a, w')
    | (Throw e, w') => h e w'
    end.

(** [try { c } finally { f }]: [f] always runs; the outcome is that of [c]
    unless [f] itself throws. *)
Definition try_finally {A} (c : M A) (f : M unit) : M A :=
  fun w =>
    let (r, w') := c w in
    match f w' with
    | (Ok _, w'') => (r, w'')
    | (Throw e, w'') => (Throw e, w'')
    end.

Definition get_this : M Component := fun w => (Ok (this w), w).

Definition modify_this (f : Component -> Component) : M unit :=
  fun w => (Ok tt, mkWorld (f (this w)) (browser w)).

Definition get_browser : M Browser := fun w => (Ok (browser w), w).

Definition modify_browser (f : Browser -> Browser) : M unit :=
  fun w => (Ok tt, mkWorld (this w) (f (browser w))).

Declare Scope js_scope.
Delimit Scope js_scope with js.
Notation "x <- c ;; k" := (bind c (fun x => k))
  (at level 61, c at next level, right associativity) : js_scope.
Notation "c ;; k" := (bind c (fun _ => k))
  (at level 61, right associativity) : js_scope.
Local Open Scope js_scope.

(** *** The host

    Built-ins whose results depend on the engine, the locale or the time
    zone, or whose full definition is not needed: they are parameters of
    the embedding. *)
Class Host : Type := {
  (** [JSON.parse(s)]; [None] when it throws a [SyntaxError]. *)
  JSON_parse : string -> option Value;
  (** [JSON.stringify(v)] *)
  JSON_stringify : Value -> string;
  (** The conversion of a string to a number. *)
  StringToNumber : string -> number;
  (** [new Date(x)] as a number: its time value, [NaN] for an invalid date. *)
  Date_valueOf : option string -> number;
  (** [new Date(x).toLocaleDateString()] *)
  Date_toLocaleDateString : option string -> string;
  (** [a.localeCompare(b)] *)
  localeCompare : string -> string -> Z
}.

Section Methods.
Context `{Host}.

(** **** Browser primitives *)

Definition TypeError (msg : string) : Error := mkError msg.

Fixpoint lookup {V : Type} (k : string) (l : list (string * V)) : option V :=
  match l with
  | [] => None
  | (k', v) :: l' => if String.eqb k k' then Some v else lookup k l'
  end.

Fixpoint store {V : Type} (k : string) (v : V) (l : list (string * V)) : list (string * V) :=
  match l with
  | [] => [(k, v)]
  | (k', v') :: l' => if String.eqb k k' then (k, v) :: l' else (k', v') :: store k v l'
  end.

(** [localStorage.getItem(key)]; [None] is [null]. *)
Definition localStorage_getItem (key : string) : M (option string) :=
  b <- get_browser ;;
  if accessible (localStorage b)
  then ret (lookup key (entries (localStorage b)))
  else throw (mkError "The operation is insecure.").

(** [localStorage.setItem(key, value)] *)
Definition localStorage_setItem (key val : string) : M unit :=
  b <- get_browser ;;
  let st := localStorage b in
  if accessible st && writable st
  then modify_browser (fun b =>
         mkBrowser (mkStorage (accessible st) (writable st) (store key val (entries st)))
                   (now b) (network b) (requests b) (log b))
  else throw (mkError "The quota has been exceeded.").

(** [Date.now()] *)
Definition Date_now : M Z :=
  b <- get_browser ;; ret (now b).

(** [await fetch(url, { cache: "no-store" })]: the request is recorded and
    answered by the network. *)
Definition fetch (url : string) : M (bool * Body) :=
  b <- get_browser ;;
  modify_browser (fun b =>
    mkBrowser (localStorage b) (now b) (network b) (S (requests b)) (log b ++ [Fetch url])) ;;
  match network b (requests b) with
  | Rejected e => throw e
  | Resolved ok body => ret (ok, body)
  end.

(** [await res.json()] *)
Definition res_json (body : Body) : M Value :=
  match body with
  | BodyJson v => ret v
  | BodyInvalid e => throw e
  end.

(** [await new Promise((r) => setTimeout(r, ms))] *)
Definition sleep (ms : Z) : M unit :=
  modify_browser (fun b =>
    mkBrowser (localStorage b) (now b + ms) (network b) (requests b) (log b ++ [Sleep ms])).

(** [JSON.parse(s)] *)
Definition parse (s : string) : M Value :=
  match JSON_parse s with
  | Some v => ret v
  | None => throw (mkError "Unexpected token in JSON")
  end.

(** **** Values *)

(** Truthiness of a parsed value. *)
Definition value_truthy (v : Value) : bool :=
  match v with
  | VNull => false
  | VBoolean b => b
  | VNumber n => negb (n =? 0)
  | VString s => truthy s
  | VArray _ => true
  | VObject _ => true
  end.

(** [v.name] on a truthy value; [None] is [undefined].  Only objects made
    by [JSON.parse] carry the properties asked for here. *)
Definition get_prop (v : Value) (name : string) : option Value :=
  match v with
  | VObject props => lookup name props
  | _ => None
  end.

(** [Array.isArray(x)] *)
Definition isArray (x : option Value) : option (list BlogEntry) :=
  match x with
  | Some (VArray d) => Some d
  | _ => None
  end.

(** The conversion to a number that [Date.now() - x] applies to [x].  An
    array converts through its string: the empty array gives [0], an array
    of objects [NaN].  A plain object gives [NaN], unless it has an own
    (hence not callable) [toString] property: then no primitive value can
    be had and a [TypeError] is thrown. *)
Definition ToNumber (x : option Value) : M number :=
  match x with
  | None => ret NaN
  | Some VNull => ret (Num 0)
  | Some (VBoolean b) => ret (Num (if b then 1 else 0))
  | Some (VNumber n) => ret (Num n)
  | Some (VString s) => ret (StringToNumber s)
  | Some (VArray []) => ret (Num 0)
  | Some (VArray (_ :: _)) => ret NaN
  | Some (VObject props) =>
      match lookup "toString" props with
      | Some _ => throw (TypeError "Cannot convert object to primitive value")
      | None => ret NaN
      end
  end.

(** **** [fetchData] *)

Definition cacheKey : string := "blogs_cache_v1".
Definition cacheTtlMs : Z := 10 * 60 * 1000.
Definition maxAttempts : Z := 3.

(** The body of the first [try]: [true] when it ends in [return], [false]
    when control falls out of it. *)
Definition read_cache : M bool :=
  cached <- localStorage_getItem cacheKey ;;
  match cached with
  | Some s =>
      if truthy s then
        parsed <- parse s ;;
        if value_truthy parsed then
          match isArray (get_prop parsed "data") with
          | Some data =>
              t <- Date_now ;;
              ts <- ToNumber (get_prop parsed "timestamp") ;;
              if lt (sub (Num t) ts) (Num cacheTtlMs) then
                modify_this (set_items data) ;;
                modify_this (set_filteredItems data) ;;
                ret true
              else ret false
          | None => ret false
          end
        else ret false
      else ret false
  | None => ret false
  end.

(** The body of the [try] inside the loop; it ends in [return]. *)
Definition attempt_body : M unit :=
  c <- get_this ;;
  res <- fetch (apiUrl c) ;;
  let (ok, body) := res in
  if negb ok then throw (mkError "Failed to fetch blogs") else
  data <- res_json body ;;
  match isArray (Some data) with
  | None => throw (mkError "Unexpected API response")
  | Some d =>
      modify_this (set_items d) ;;
      modify_this (set_filteredItems d) ;;
      try_catch
        (t <- Date_now ;;
         localStorage_setItem cacheKey
           (JSON_stringify (VObject [("data", VArray d); ("timestamp", VNumber t)])))
        (fun _ => ret tt)
  end.

(** [for (let attempt = ...; attempt <= maxAttempts; attempt++)], with
    [fuel] bounding the iterations still to run. *)
Fixpoint retry_loop (fuel : nat) (attempt : Z) : M unit :=
  match fuel with
  | O => ret tt
  | S fuel' =>
      if attempt <=? maxAttempts then
        try_catch attempt_body
          (fun err =>
             let lastError := err in
             if attempt <? maxAttempts then
               sleep (300 * attempt) ;;
               retry_loop fuel' (attempt + 1)
             else throw lastError)
      else ret tt
  end.

Definition fetch_from_network : M unit :=
  retry_loop (Z.to_nat maxAttempts) 1.

Definition fetchData : M unit :=
  returned <- try_catch read_cache (fun _ => ret false) ;;
  if returned then ret tt else fetch_from_network.

(** **** [render] *)

Definition dq : string := String (ascii_of_nat 34) EmptyString.
Definition nl : string := String (ascii_of_nat 10) EmptyString.

Fixpoint spaces (n : nat) : string :=
  match n with
  | O => EmptyString
  | S n' => String " " (spaces n')
  end.

(** A line of the template literal: the line break that precedes it, its
    indentation, its text. *)
Definition line (indent : nat) (text : string) : string :=
  nl ++ spaces indent ++ text.

(** [name="val"] *)
Definition attr (name val : string) : string := name ++ "=" ++ dq ++ val ++ dq.

(** [${x}] for a string field: a missing field prints as [undefined]. *)
Definition interpolate (x : option string) : string :=
  match x with
  | Some s => s
  | None => "undefined"
  end.

Definition interpolate_reading_time (x : option ReadingTime) : string :=
  match x with
  | Some (RTNumber n) => number_toString n
  | Some (RTString s) => s
  | None => "undefined"
  end.

(** [item.tags || []] *)
Definition tags_or_empty (x : option (list string)) : list string :=
  match x with
  | Some l => l
  | None => []
  end.

Definition tag_span (t : string) : string :=
  "<span " ++ attr "class" "tag" ++ ">" ++ t ++ "</span>".

(** The template literal of [render], for one entry. *)
Definition article (item : BlogEntry) : string :=
  line 16 ("<article " ++ attr "class" "blog-item" ++ ">") ++
  line 20 ("<img " ++ attr "src" (interpolate (image item)) ++ " " ++ attr "alt" ""
           ++ " " ++ attr "class" "blog-image" ++ " />") ++
  line 20 ("<div " ++ attr "class" "blog-content" ++ ">") ++
  line 24 ("<h3 " ++ attr "class" "blog-title" ++ ">" ++ interpolate (title item) ++ "</h3>") ++
  line 24 ("<div " ++ attr "class" "blog-meta" ++ ">") ++
  line 28 ("<span " ++ attr "class" "blog-author" ++ ">" ++ interpolate (author item) ++ "</span>") ++
  line 28 ("<time " ++ attr "class" "blog-date" ++ ">"
           ++ Date_toLocaleDateString (published_date item) ++ "</time>") ++
  line 28 ("<span " ++ attr "class" "blog-reading-time" ++ ">"
           ++ interpolate_reading_time (reading_time item) ++ "</span>") ++
  line 24 "</div>" ++
  line 24 ("<p " ++ attr "class" "blog-excerpt" ++ ">" ++ interpolate (content item) ++ "</p>") ++
  line 24 ("<div " ++ attr "class" "blog-tags" ++ ">"
           ++ join (map tag_span (tags_or_empty (tags item))) ++ "</div>") ++
  line 20 "</div>" ++
  line 16 "</article>" ++
  line 8 "".

Definition no_results : string :=
  "<p " ++ attr "class" "no-results" ++ ">No blogs found</p>".

(** [this.listContainer.innerHTML = html]; the assignment throws when the
    content region is missing. *)
Definition set_list_innerHTML (html : string) : M unit :=
  c <- get_this ;;
  match listContainer c with
  | Some el => modify_this (set_listContainer (Some (set_innerHTML html el)))
  | None => throw (TypeError "Cannot set properties of null (setting 'innerHTML')")
  end.

Definition render : M unit :=
  c <- get_this ;;
  let e := (page c * perPage c)%nat in
  let slice := slice0 (filteredItems c) e in
  set_list_innerHTML (join (map article slice)) ;;
  if Nat.eqb (List.length slice) 0
  then set_list_innerHTML no_results
  else ret tt.

(** **** [onSortChange] *)

(** [e.target?.value || ""] *)
Definition target_value (e : Event) : string :=
  or_empty (option_map value (target e)).

(** [a || b] on match results: [null] is falsy, an array truthy. *)
Definition or_match (a b : match_result) : match_result :=
  match a with
  | Some m => Some m
  | None => b
  end.

Definition parseMinutes (val : option ReadingTime) : number :=
  match val with
  | Some (RTNumber n) => Num n
  | Some (RTString s) =>
      let m := or_match (match_digits_min s) (match_digits s) in
      match m with
      | Some m => parseInt_arg (group m 1)
      | None => Num MAX_SAFE_INTEGER
      end
  | None => Num MAX_SAFE_INTEGER
  end.

Definition by_date (a b : BlogEntry) : number :=
  sub (Date_valueOf (published_date b)) (Date_valueOf (published_date a)).

Definition by_reading_time (a b : BlogEntry) : number :=
  sub (parseMinutes (reading_time a)) (parseMinutes (reading_time b)).

Definition by_category (a b : BlogEntry) : number :=
  let ac := toLowerCase (toString (or_empty (category a))) in
  let bc := toLowerCase (toString (or_empty (category b))) in
  Num (localeCompare ac bc).

Definition by_nothing (a b : BlogEntry) : number := Num 0.

(** The [switch]: the comparator each criterion sorts with. *)
Definition comparator (by_ : string) : BlogEntry -> BlogEntry -> number :=
  if String.eqb by_ "date" then by_date
  else if String.eqb by_ "reading_time" then by_reading_time
  else if String.eqb by_ "category" then by_category
  else by_nothing.

Definition onSortChange (e : Event) : M unit :=
  let by_ := target_value e in
  c <- get_this ;;
  let items := filteredItems c in
  let items := sort (comparator by_) items in
  modify_this (set_filteredItems items) ;;
  modify_this (set_page 1%nat) ;;
  render.

(** **** [onFilterChange] *)

(** The callback of [this.items.filter]. *)
Definition filter_matches (needle : string) (it : BlogEntry) : bool :=
  let category := toLowerCase (toString (or_empty (category it))) in
  let tags :=
    match tags it with
    | Some ts => map (fun t => toLowerCase (toString t)) ts
    | None => []
    end in
  String.eqb category needle || array_includes tags needle.

Definition onFilterChange (e : Event) : M unit :=
  let val := toString (target_value e) in
  c <- get_this ;;
  (if negb (truthy val)
   then modify_this (set_filteredItems (items c))
   else
     let needle := toLowerCase val in
     modify_this (set_filteredItems (filter (filter_matches needle) (items c)))) ;;
  modify_this (set_page 1%nat) ;;
  render.

(** **** [onSearchInput] *)

(** The callback of [this.items.filter]. *)
Definition search_matches (q : string) (it : BlogEntry) : bool :=
  let title := toLowerCase (toString (or_empty (title it))) in
  let content := toLowerCase (toString (or_empty (content it))) in
  includes title q || includes content q.

Definition onSearchInput (e : Event) : M unit :=
  let q := toLowerCase (trim (toString (target_value e))) in
  c <- get_this ;;
  (if negb (truthy q)
   then
     let fakeEvent := mkEvent (filterSelect c) in
     onFilterChange fakeEvent
   else
     modify_this (set_filteredItems (filter (search_matches q) (items c)))) ;;
  modify_this (set_page 1%nat) ;;
  render.

(** **** Loading indicator, error display, listeners, [init] *)

(** [this.loadingIndicator?.classList.remove("hidden")] *)
Definition showLoading : M unit :=
  modify_this (fun c =>
    set_loadingIndicator (option_map (classList_remove "hidden") (loadingIndicator c)) c).

(** [this.loadingIndicator?.classList.add("hidden")] *)
Definition hideLoading : M unit :=
  modify_this (fun c =>
    set_loadingIndicator (option_map (classList_add "hidden") (loadingIndicator c)) c).

Definition showError (err : Error) : M unit :=
  c <- get_this ;;
  match errorContainer c with
  | None => ret tt
  | Some el =>
      modify_this (set_errorContainer
        (Some (set_textContent ("Error: " ++ message err) (classList_remove "hidden" el))))
  end.

(** [el?.addEventListener(...)] *)
Definition addEventListener (el : option Element) (l : Listener) : M unit :=
  match el with
  | Some _ => modify_this (fun c => set_listeners (listeners c ++ [l]) c)
  | None => ret tt
  end.

Definition setupEventListeners : M unit :=
  c <- get_this ;;
  addEventListener (sortSelect c) SortChangeListener ;;
  addEventListener (filterSelect c) FilterChangeListener ;;
  addEventListener (searchInput c) (SearchInputListener 250).

Definition init : M unit :=
  try_finally
    (try_catch
       (showLoading ;;
        fetchData ;;
        setupEventListeners ;;
        render)
       (fun err => showError err))
    hideLoading.

(** [new BlogList(container)]: the fields the constructor sets, given the
    nodes [querySelector] finds under the container. *)
Definition constructor (list_ loading error_ sort_ filter_ search : option Element) : Component :=
  mkComponent list_ loading error_ sort_ filter_ search
    "https://frontend-blog-lyart.vercel.app/blogsData.json"
    [] [] 1%nat 10%nat [].

End Methods.

End BlogList.

(* ================================================================== *)
(** ** Sample data *)
(* ================================================================== *)

Module Sample.
Import JS BlogList.

Definition entry (t : string) (c : option string) (ts : option (list string))
    (rt : option ReadingTime) : BlogEntry :=
  mkEntry (Some t) (Some "Ann") (Some ("About " ++ t)) (Some "a.png")
    (Some "2024-05-01") rt c ts.

Definition e5 : BlogEntry := entry "React Basics" (Some "Gadgets") None (Some (RTString "5 min read")).
Definition e12 : BlogEntry := entry "Funding" (Some "Startups") (Some ["Money"]) (Some (RTString "12")).
Definition e7 : BlogEntry := entry "Drafts" (Some "Writing") (Some ["GADGETS"]) (Some (RTNumber 7)).
Definition e0 : BlogEntry := entry "Notes" None None (Some (RTString "no time")).

Definition blogs : list BlogEntry := [e5; e12; e7; e0].

(** A stored envelope, written at time [1000]. *)
Definition envelope : Value :=
  VObject [("data", VArray blogs); ("timestamp", VNumber 1000)].

(** A host that parses the one stored string, compares strings by their
    first character and knows no date. *)
#[local] Instance host : Host := {|
  JSON_parse := fun s => if String.eqb s "ENVELOPE" then Some envelope else None;
  JSON_stringify := fun _ => "ENVELOPE";
  StringToNumber := fun _ => NaN;
  Date_valueOf := fun _ => NaN;
  Date_toLocaleDateString := fun _ => "5/1/2024";
  localeCompare := fun a b =>
    match a, b with
    | String x _, String y _ => Z.of_N (code x) - Z.of_N (code y)
    | EmptyString, String _ _ => -1
    | String _ _, EmptyString => 1
    | EmptyString, EmptyString => 0
    end
|}.

Definition node (v : string) : Element := mkElement ["hidden"] "" "" v.

Definition component : Component :=
  constructor (Some (node "")) (Some (node "")) (Some (node ""))
    (Some (node "")) (Some (node "Startups")) (Some (node "")).

Definition failure : Error := mkError "Failed to fetch".

(** A browser whose storage holds [stored], at time [t], with the network
    answering [net]. *)
Definition browser_with (stored : list (string * string)) (t : Z) (net : nat -> Response) : Browser :=
  mkBrowser (mkStorage true true stored) t net 0 [].

Definition offline : nat -> Response := fun _ => Rejected failure.

(** The network fails [n] times, then serves [blogs]. *)
Definition online_after (n : nat) : nat -> Response :=
  fun i => if Nat.ltb i n then Resolved false (BodyJson VNull)
           else Resolved true (BodyJson (VArray blogs)).

Definition loaded : World :=
  mkWorld (set_filteredItems blogs (set_items blogs component))
          (browser_with [] 0 offline).

(** A fresh component in a browser whose cache was written at time [1000],
    visited at time [t]. *)
Definition cached_at (t : Z) : World :=
  mkWorld component (browser_with [("blogs_cache_v1", "ENVELOPE")] t offline).

(** A fresh component with an empty cache and the network [net]. *)
Definition uncached (net : nat -> Response) : World :=
  mkWorld component (browser_with [] 0 net).

Definition url : string := "https://frontend-blog-lyart.vercel.app/blogsData.json".

End Sample.

(* ================================================================== *)
(** ** The stated behaviour, in its own words *)
(* ================================================================== *)

Module Spec.
Import JS BlogList.

(** Case-insensitive equality of two strings. *)
Definition ci_equal (a b : string) : bool :=
  String.eqb (toLowerCase a) (toLowerCase b).

(** The entry's category equals [v], case-insensitively. *)
Definition category_is (v : string) (it : BlogEntry) : bool :=
  match category it with
  | Some c => ci_equal c v
  | None => false
  end.

(** The entry's tags contain [v], case-insensitively. *)
Definition tagged (v : string) (it : BlogEntry) : bool :=
  match tags it with
  | Some ts => existsb (fun t => ci_equal t v) ts
  | None => false
  end.

(** The view a filter value selects: everything for the empty value. *)
Definition filter_view (v : string) (all : list BlogEntry) : list BlogEntry :=
  match v with
  | EmptyString => all
  | _ => filter (fun it => category_is v it || tagged v it) all
  end.

(** A field contains the lower-case text [q], case-insensitively. *)
Definition contains_ci (field : option string) (q : string) : bool :=
  match field with
  | Some s => includes (toLowerCase s) q
  | None => false
  end.

(** The view a non-empty query selects. *)
Definition search_view (q : string) (all : list BlogEntry) : list BlogEntry :=
  filter (fun it => contains_ci (title it) q || contains_ci (content it) q) all.

(** The entries on display: the first [page * perPage] of the view. *)
Definition visible (c : Component) : list BlogEntry :=
  firstn (page c * perPage c) (filteredItems c).

(** The markup of a list of entries on display. *)
Definition markup `{Host} (shown : list BlogEntry) : string :=
  match shown with
  | [] => no_results
  | _ :: _ => join (map article shown)
  end.


(** The response the network gives to the next request. *)
Definition next_response (w : World) : Response :=
  network (browser w) (requests (browser w)).

(** The payload of a successful exchange: a success status and a body
    that decodes to an array. *)
Definition payload_of (r : Response) : option (list BlogEntry) :=
  match r with
  | Resolved true (BodyJson (VArray d)) => Some d
  | _ => None
  end.

(** The error of a failed exchange: a transport error, a non-success
    status, a body that does not decode, a payload that is not an array. *)
Definition failure_of (r : Response) : option Error :=
  match r with
  | Rejected e => Some e
  | Resolved false _ => Some (mkError "Failed to fetch blogs")
  | Resolved true (BodyInvalid e) => Some e
  | Resolved true (BodyJson (VArray _)) => None
  | Resolved true (BodyJson _) => Some (mkError "Unexpected API response")
  end.

(** The world once a request has gone out. *)
Definition after_fetch (w : World) : World :=
  let b := browser w in
  mkWorld (this w)
    (mkBrowser (localStorage b) (now b) (network b) (S (requests b))
       (log b ++ [Fetch (apiUrl (this w))])).

(** The world once the component has waited [ms] milliseconds. *)
Definition after_sleep (ms : Z) (w : World) : World :=
  let b := browser w in
  mkWorld (this w)
    (mkBrowser (localStorage b) (now b + ms) (network b) (requests b)
       (log b ++ [Sleep ms])).

(** What is stored under the cache key, when storage can be read. *)
Definition stored (w : World) : option string :=
  if accessible (localStorage (browser w))
  then lookup cacheKey (entries (localStorage (browser w)))
  else None.

(** The cache holds a fresh envelope of [d]: a stored text that parses to
    an object with the array [d] under [data] and, under [timestamp], a
    number less than ten minutes before now. *)
Definition fresh_envelope `{Host} (w : World) (d : list BlogEntry) : Prop :=
  exists s props t,
    stored w = Some s /\ s <> EmptyString /\
    JSON_parse s = Some (VObject props) /\
    lookup "data" props = Some (VArray d) /\
    lookup "timestamp" props = Some (VNumber t) /\
    now (browser w) - t < 10 * 60 * 1000.

(** The cache is of no use: nothing is stored (or storage cannot be read),
    or what is stored is corrupt (it does not parse, or holds no array
    under [data], or no [timestamp]), or it is a well-formed envelope ten
    minutes old or older. *)
Inductive unusable_cache `{Host} (w : World) : Prop :=
| cache_absent :
    stored w = None -> unusable_cache w
| cache_empty :
    stored w = Some EmptyString -> unusable_cache w
| cache_unparsable (s : string) :
    stored w = Some s -> JSON_parse s = None -> unusable_cache w
| cache_no_data (s : string) (v : Value) :
    stored w = Some s -> JSON_parse s = Some v ->
    isArray (get_prop v "data") = None -> unusable_cache w
| cache_no_timestamp (s : string) (props : list (string * Value)) :
    stored w = Some s -> JSON_parse s = Some (VObject props) ->
    lookup "timestamp" props = None -> unusable_cache w
| cache_stale (s : string) (props : list (string * Value)) (t : Z) :
    stored w = Some s -> JSON_parse s = Some (VObject props) ->
    lookup "timestamp" props = Some (VNumber t) ->
    10 * 60 * 1000 <= now (browser w) - t -> unusable_cache w.

(** [c'] differs from [c] at most in [items] and [filteredItems]. *)
Definition same_but_items (c c' : Component) : Prop :=
  c' = set_filteredItems (filteredItems c') (set_items (items c') c).

(** [c'] has a loading indicator exactly when [c] has one. *)
Definition same_indicator (c c' : Component) : Prop :=
  option_map (fun _ => tt) (loadingIndicator c')
  = option_map (fun _ => tt) (loadingIndicator c).

(** A computation keeps the component within the relation [R], whether it
    returns or throws. *)
Definition preserves {A : Type} (R : Component -> Component -> Prop) (m : M A) : Prop :=
  forall w, R (this w) (this (snd (m w))).

(** A computation always returns. *)
Definition returns {A : Type} (m : M A) : Prop :=
  forall w, exists a, fst (m w) = Ok a.

(** The value selected in a control that may be missing. *)
Definition selected (control : option Element) : string :=
  match control with
  | Some el => value el
  | None => EmptyString
  end.

End Spec.

(* ================================================================== *)
(** ** Sort keys *)
(* ================================================================== *)

Module Keys.
Import JS BlogList.

(** The entry's reading time has a numeric sort key. *)
Definition has_minutes (it : BlogEntry) : Prop :=
  parseMinutes (reading_time it) <> NaN.

(** That key. *)
Definition minutes (it : BlogEntry) : Z :=
  match parseMinutes (reading_time it) with
  | Num n => n
  | NaN => 0
  end.

(** The entry's publication date is a valid date. *)
Definition has_time `{Host} (it : BlogEntry) : Prop :=
  Date_valueOf (published_date it) <> NaN.

(** Its time value. *)
Definition time `{Host} (it : BlogEntry) : Z :=
  match Date_valueOf (published_date it) with
  | Num n => n
  | NaN => 0
  end.

(** The text the category comparator compares. *)
Definition category_key (it : BlogEntry) : string :=
  toLowerCase (or_empty (category it)).

(** [localeCompare] orders strings: any two are comparable, and the order
    is transitive. *)
Definition collation_order `{Host} : Prop :=
  (forall a b, 0 < localeCompare a b -> localeCompare b a <= 0) /\
  (forall a b c, localeCompare a b <= 0 -> localeCompare b c <= 0 -> localeCompare a c <= 0).

(** A non-empty run of digits. *)
Inductive digit_run : string -> Prop :=
| digit_run_one (c : ascii) : is_digit c = true -> digit_run (String c EmptyString)
| digit_run_more (c : ascii) (s : string) :
    is_digit c = true -> digit_run s -> digit_run (String c s).

(** A string has a digit somewhere. *)
Fixpoint has_digit (s : string) : bool :=
  match s with
  | EmptyString => false
  | String c r => is_digit c || has_digit r
  end.

End Keys.

(* ================================================================== *)
(** ** Sessions: the events that reach the handlers *)
(* ================================================================== *)

Module Session.
Import JS BlogList.

(** A call of one of the three handlers, with its event. *)
Inductive Action : Type :=
| SortChange (e : Event)
| FilterChange (e : Event)
| SearchInput (e : Event).

Definition handle `{Host} (a : Action) : M unit :=
  match a with
  | SortChange e => onSortChange e
  | FilterChange e => onFilterChange e
  | SearchInput e => onSearchInput e
  end.

(** [el.value = v] *)
Definition set_value (v : string) (el : Element) : Element :=
  mkElement (classList el) (textContent el) (innerHTML el) v.

Definition set_sortSelect (v : option Element) (c : Component) : Component :=
  mkComponent (listContainer c) (loadingIndicator c) (errorContainer c)
    v (filterSelect c) (searchInput c) (apiUrl c)
    (items c) (filteredItems c) (page c) (perPage c) (listeners c).

Definition set_filterSelect (v : option Element) (c : Component) : Component :=
  mkComponent (listContainer c) (loadingIndicator c) (errorContainer c)
    (sortSelect c) v (searchInput c) (apiUrl c)
    (items c) (filteredItems c) (page c) (perPage c) (listeners c).

Definition set_searchInput (v : option Element) (c : Component) : Component :=
  mkComponent (listContainer c) (loadingIndicator c) (errorContainer c)
    (sortSelect c) (filterSelect c) v (apiUrl c)
    (items c) (filteredItems c) (page c) (perPage c) (listeners c).

(** What the user does: pick a sort criterion, pick a filter value, or
    leave a text in the search box (until the debounce delay has passed). *)
Inductive Gesture : Type :=
| SelectSort (v : string)
| SelectFilter (v : string)
| TypeSearch (v : string).

(** The gesture sets the value of its control, which is the node the
    component holds in [this]; the browser then calls the listener that
    [setupEventListeners] registered on that control, and the event's
    target is the control itself.  A control that is missing has no
    listener: nothing happens.  A handler that throws ends there, and the
    world stays as it left it. *)
Definition deliver `{Host} (g : Gesture) (w : World) : World :=
  match g with
  | SelectSort v =>
      match sortSelect (this w) with
      | Some el =>
          let el' := set_value v el in
          snd (handle (SortChange (mkEvent (Some el')))
                 (mkWorld (set_sortSelect (Some el') (this w)) (browser w)))
      | None => w
      end
  | SelectFilter v =>
      match filterSelect (this w) with
      | Some el =>
          let el' := set_value v el in
          snd (handle (FilterChange (mkEvent (Some el')))
                 (mkWorld (set_filterSelect (Some el') (this w)) (browser w)))
      | None => w
      end
  | TypeSearch v =>
      match searchInput (this w) with
      | Some el =>
          let el' := set_value v el in
          snd (handle (SearchInput (mkEvent (Some el')))
                 (mkWorld (set_searchInput (Some el') (this w)) (browser w)))
      | None => w
      end
  end.

(** The gestures of a session, one after the other. *)
Fixpoint dispatch `{Host} (gestures : list Gesture) (w : World) : World :=
  match gestures with
  | [] => w
  | g :: rest => dispatch rest (deliver g w)
  end.

(** The view is a selection of the fetched entries, in some order. *)
Definition selection (c : Component) : Prop :=
  exists f, Permutation (filter f (items c)) (filteredItems c).

(** [c'] differs from [c] at most in the view, the page and the content
    region. *)
Definition view_only (c c' : Component) : Prop :=
  exists lc f pg, c' = set_listContainer lc (set_page pg (set_filteredItems f c)).

(** [c'] has each of the three controls exactly when [c] has it. *)
Definition same_controls (c c' : Component) : Prop :=
  option_map (fun _ => tt) (sortSelect c') = option_map (fun _ => tt) (sortSelect c)
  /\ option_map (fun _ => tt) (filterSelect c') = option_map (fun _ => tt) (filterSelect c)
  /\ option_map (fun _ => tt) (searchInput c') = option_map (fun _ => tt) (searchInput c).

End Session.

(* ================================================================== *)
(** ** Visits: what a fetch leaves behind for the next one *)
(* ================================================================== *)

Module Visits.
Import JS BlogList.

(** The envelope [fetchData] writes for the payload [d] at time [t]. *)
Definition envelope_of (d : list BlogEntry) (t : Z) : Value :=
  VObject [("data", VArray d); ("timestamp", VNumber t)].

(** Storage after the attempt to cache [d]: a usable storage has the
    envelope under the cache key, any other is as before. *)
Definition cache_written `{Host} (d : list BlogEntry) (b : Browser) : Storage :=
  let st := localStorage b in
  if accessible st && writable st
  then mkStorage (accessible st) (writable st)
         (store cacheKey (JSON_stringify (envelope_of d (now b))) (entries st))
  else st.

(** The world after an exchange that delivered [d]. *)
Definition adopted `{Host} (d : list BlogEntry) (w : World) : World :=
  let b := browser w in
  mkWorld (set_filteredItems d (set_items d (this w)))
    (mkBrowser (cache_written d b) (now b) (network b) (S (requests b))
       (log b ++ [Fetch (apiUrl (this w))])).

(** The world before the second and before the third attempt. *)
Definition second_try (w : World) : World :=
  Spec.after_sleep 300 (Spec.after_fetch w).

Definition third_try (w : World) : World :=
  Spec.after_sleep 600 (Spec.after_fetch (second_try w)).

(** A later visit: a component [c], the same browser [dt] milliseconds on. *)
Definition revisit (c : Component) (dt : Z) (w : World) : World :=
  let b := browser w in
  mkWorld c (mkBrowser (localStorage b) (now b + dt) (network b) (requests b) (log b)).

(** [JSON.parse] reads back what [JSON.stringify] wrote for [v], and that
    text is not empty. *)
Definition round_trips `{Host} (v : Value) : Prop :=
  JSON_parse (JSON_stringify v) = Some v /\ JSON_stringify v <> EmptyString.

(** Storage can be read and written. *)
Definition storage_open (w : World) : Prop :=
  accessible (localStorage (browser w)) = true /\
  writable (localStorage (browser w)) = true.

(** How many requests, and how many waits, a record of effects holds. *)
Fixpoint fetches (l : list Effect) : nat :=
  match l with
  | [] => 0
  | Fetch _ :: r => S (fetches r)
  | Sleep _ :: r => fetches r
  end.

Fixpoint slept (l : list Effect) : Z :=
  match l with
  | [] => 0
  | Fetch _ :: r => slept r
  | Sleep ms :: r => ms + slept r
  end.


End Visits.

(* ================================================================== *)
(** ** The debounced search listener *)
(* ================================================================== *)

Module Debounce.
Import JS BlogList.











End Debounce.

(* ================================================================== *)
(** ** Further sample data *)
(* ================================================================== *)

Module Fixtures.
Import JS BlogList.

(** A host like the sample one that also reads the year of a date. *)
Definition dated_host : Host := {|
  JSON_parse := @JSON_parse Sample.host;
  JSON_stringify := @JSON_stringify Sample.host;
  StringToNumber := @StringToNumber Sample.host;
  Date_valueOf := fun d => match d with Some s => parseInt s | None => NaN end;
  Date_toLocaleDateString := @Date_toLocaleDateString Sample.host;
  localeCompare := @localeCompare Sample.host
|}.

Definition dated (t : string) (d : string) : BlogEntry :=
  mkEntry (Some t) None None None (Some d) None (Some "News") None.

Definition archive : list BlogEntry :=
  [dated "Old" "2019-03-01"; dated "New" "2024-05-01"; dated "Mid" "2021-11-30"].

(** Entries whose reading times all have a numeric key. *)
Definition readable : list BlogEntry := [Sample.e0; Sample.e7; Sample.e5].

Definition viewing (l : list BlogEntry) : World :=
  mkWorld (set_filteredItems l (set_items l Sample.component))
          (Sample.browser_with [] 0 Sample.offline).

Definition choose (v : string) : Event := mkEvent (Some (Sample.node v)).

(** A first visit at time [1000], the network serving the sample blogs. *)
Definition first_visit : World :=
  mkWorld Sample.component (Sample.browser_with [] 1000 (Sample.online_after 0)).

(** A few events in a row. *)
Definition busy : list Session.Gesture :=
  [Session.SelectFilter "Gadgets"; Session.SelectSort "category";
   Session.TypeSearch "fund"; Session.SelectSort "reading_time"].


End Fixtures.

(* ================================================================== *)
(** ** Properties *)
(* ================================================================== *)

Import JS BlogList.
Local Open Scope js_scope.

(** Unfolds the monad's operations. *)
Ltac run :=
  unfold bind, ret, throw, try_catch, try_finally, get_this, modify_this,
    get_browser, modify_browser in *;
  cbn [fst snd this browser] in *.

(** *** Sorting *)

Section SortFacts.
Context {A : Type} (cmp : A -> A -> number).

Lemma insert_permutation (x : A) (l : list A) :
  Permutation (x :: l) (insert cmp x l).
Proof.
  induction l as [|y l IH]; simpl.
  - apply Permutation_refl.
  - destruct (sort_compare cmp x y <=? 0).
    + apply Permutation_refl.
    + apply perm_trans with (y :: x :: l).
      * apply perm_swap.
      * apply perm_skip, IH.
Qed.

Lemma sort_permutation (l : list A) : Permutation l (sort cmp l).
Proof.
  induction l as [|x l IH]; simpl.
  - apply perm_nil.
  - apply perm_trans with (x :: sort cmp l).
    + apply perm_skip, IH.
    + apply insert_permutation.
Qed.

(** A comparator that never answers "after" leaves the array as it is. *)
Lemma sort_never_after (l : list A) :
  (forall a b, sort_compare cmp a b <= 0) -> sort cmp l = l.
Proof.
  intros Hle. induction l as [|x l IH]; simpl; [reflexivity|].
  rewrite IH. destruct l as [|y l]; simpl; [reflexivity|].
  destruct (Z.leb_spec (sort_compare cmp x y) 0) as [_|Hgt]; [reflexivity|].
  specialize (Hle x y). lia.
Qed.
End SortFacts.

Lemma comparator_default (by_ : string) `{Host} :
  by_ <> "date" -> by_ <> "reading_time" -> by_ <> "category" ->
  comparator by_ = by_nothing.
Proof.
  intros Hd Hr Hc. unfold comparator.
  apply String.eqb_neq in Hd, Hr, Hc. now rewrite Hd, Hr, Hc.
Qed.

(** *** What [render] touches *)

Section Properties.
Context `{Host}.

Lemma render_frame (w : World) :
  let w' := snd (render w) in
  items (this w') = items (this w) /\
  filteredItems (this w') = filteredItems (this w) /\
  page (this w') = page (this w) /\
  perPage (this w') = perPage (this w) /\
  loadingIndicator (this w') = loadingIndicator (this w) /\
  errorContainer (this w') = errorContainer (this w) /\
  browser w' = browser w.
Proof.
  unfold render, set_list_innerHTML. run.
  destruct (listContainer (this w)); cbn.
  - destruct (Nat.eqb _ 0); cbn; repeat split; reflexivity.
  - repeat split; reflexivity.
Qed.


(** *** What the handlers write *)

(** Rewrites the fields read after a [render] to their values before it. *)
Ltac after_render :=
  match goal with
  | |- context [render ?w1] =>
      let F := fresh "F" in
      pose proof (render_frame w1) as F; cbv zeta in F;
      destruct F as (-> & -> & -> & -> & _)
  end.

Lemma onSortChange_fields (e : Event) (w : World) :
  let w' := snd (onSortChange e w) in
  items (this w') = items (this w) /\
  filteredItems (this w') = sort (comparator (target_value e)) (filteredItems (this w)) /\
  page (this w') = 1%nat /\
  perPage (this w') = perPage (this w).
Proof.
  unfold onSortChange. run. after_render.
  repeat split; reflexivity.
Qed.

Lemma onFilterChange_fields (e : Event) (w : World) :
  let w' := snd (onFilterChange e w) in
  items (this w') = items (this w) /\
  filteredItems (this w') =
    (if negb (truthy (target_value e)) then items (this w)
     else filter (filter_matches (toLowerCase (target_value e))) (items (this w))) /\
  page (this w') = 1%nat /\
  perPage (this w') = perPage (this w).
Proof.
  unfold onFilterChange, toString. run.
  destruct (negb (truthy (target_value e))); cbn -[render]; after_render;
    repeat split; reflexivity.
Qed.

Lemma onSearchInput_fields (e : Event) (w : World) :
  let q := toLowerCase (trim (target_value e)) in
  let w' := snd (onSearchInput e w) in
  items (this w') = items (this w) /\
  filteredItems (this w') =
    (if negb (truthy q)
     then filteredItems (this (snd (onFilterChange (mkEvent (filterSelect (this w))) w)))
     else filter (search_matches q) (items (this w))) /\
  page (this w') = 1%nat /\
  perPage (this w') = perPage (this w).
Proof.
  cbv zeta. unfold onSearchInput, toString.
  destruct (negb (truthy (toLowerCase (trim (target_value e))))) eqn:Eq.
  - pose proof (onFilterChange_fields (mkEvent (filterSelect (this w))) w) as F.
    cbv zeta in F. destruct F as (Fi & _ & Fp & Fq).
    run.
    destruct (onFilterChange (mkEvent (filterSelect (this w))) w) as [[[]|err] w1];
      cbn [snd] in *.
    + after_render.
      repeat split; assumption || reflexivity.
    + repeat split; assumption || reflexivity.
  - run. cbn -[render]. after_render.
    repeat split; reflexivity.
Qed.

(** *** Strings *)

Lemma toLowerCase_empty (v : string) : toLowerCase v = "" -> v = "".
Proof. destruct v; simpl; [reflexivity | discriminate]. Qed.

Lemma or_empty_Some (s : string) : or_empty (Some s) = s.
Proof. destruct s; reflexivity. Qed.

Lemma startsWith_nonempty_empty (q : string) : q <> "" -> startsWith q "" = false.
Proof. destruct q; [congruence | reflexivity]. Qed.

Lemma includes_empty_subject (q : string) : q <> "" -> includes "" q = false.
Proof. intros Hq. simpl. now rewrite startsWith_nonempty_empty. Qed.

Lemma startsWith_spec (p s : string) :
  startsWith p s = true <-> exists r, s = p ++ r.
Proof.
  revert s. induction p as [|a p IH]; intros s; simpl.
  - split; [intros _; now exists s | reflexivity].
  - destruct s as [|b s].
    + split; [discriminate | intros [r Hr]; discriminate].
    + rewrite andb_true_iff, IH. split.
      * intros [Hab [r ->]]. apply Ascii.eqb_eq in Hab. subst. now exists r.
      * intros [r Hr]. injection Hr as -> ->. split; [apply Ascii.eqb_refl | now exists r].
Qed.

(** [includes] is the substring relation. *)
Lemma includes_spec (s q : string) :
  includes s q = true <-> exists a b, s = a ++ q ++ b.
Proof.
  induction s as [|c s IH].
  - simpl. rewrite orb_false_r, startsWith_spec. split.
    + intros [r Hr]. exists "", r. exact Hr.
    + intros [a [b Hab]]. destruct a; [now exists b | discriminate].
  - simpl. rewrite orb_true_iff, startsWith_spec, IH. split.
    + intros [[r Hr] | [a [b Hab]]].
      * exists "", r. exact Hr.
      * exists (String c a), b. simpl. now rewrite Hab.
    + intros [a [b Hab]]. destruct a as [|c' a]; simpl in Hab.
      * left. now exists b.
      * right. injection Hab as _ ->. now exists a, b.
Qed.

Lemma existsb_map_ext {A B : Type} (f : A -> B) (p : B -> bool) (q : A -> bool) (l : list A) :
  (forall x, p (f x) = q x) -> existsb p (map f l) = existsb q l.
Proof.
  intros E. induction l as [|x l IH]; simpl; [reflexivity | now rewrite E, IH].
Qed.

(** *** The filter and search callbacks meet their descriptions *)

Lemma filter_matches_spec (v : string) (it : BlogEntry) :
  v <> "" ->
  filter_matches (toLowerCase v) it = Spec.category_is v it || Spec.tagged v it.
Proof.
  intros Hv. unfold filter_matches, Spec.category_is, Spec.tagged, toString.
  f_equal.
  - destruct (category it) as [c|].
    + now rewrite or_empty_Some.
    + simpl. destruct (toLowerCase v) eqn:E; [|reflexivity].
      now apply toLowerCase_empty in E.
  - destruct (tags it) as [ts|]; [|reflexivity].
    unfold array_includes. apply existsb_map_ext.
    intros t. unfold Spec.ci_equal. apply String.eqb_sym.
Qed.

Lemma search_matches_spec (q : string) (it : BlogEntry) :
  q <> "" ->
  search_matches q it = Spec.contains_ci (title it) q || Spec.contains_ci (content it) q.
Proof.
  intros Hq. unfold search_matches, Spec.contains_ci, toString.
  f_equal.
  - destruct (title it) as [s|]; [now rewrite or_empty_Some|].
    apply includes_empty_subject, Hq.
  - destruct (content it) as [s|]; [now rewrite or_empty_Some|].
    apply includes_empty_subject, Hq.
Qed.

Lemma target_value_selected (e : Event) : target_value e = Spec.selected (target e).
Proof.
  unfold target_value, Spec.selected. destruct (target e) as [el|]; [|reflexivity].
  apply or_empty_Some.
Qed.

Lemma filtered_by_value (v : string) (all : list BlogEntry) :
  (if negb (truthy v) then all else filter (filter_matches (toLowerCase v)) all)
  = Spec.filter_view v all.
Proof.
  destruct v as [|c v]; [reflexivity|]. cbn [truthy negb Spec.filter_view].
  apply filter_ext. intros it. apply filter_matches_spec. discriminate.
Qed.

(** The view after a filter, and after a search, as helper facts. *)
Lemma onFilterChange_view (e : Event) (w : World) :
  filteredItems (this (snd (onFilterChange e w)))
  = Spec.filter_view (Spec.selected (target e)) (items (this w)).
Proof.
  destruct (onFilterChange_fields e w) as (_ & -> & _).
  rewrite <- target_value_selected. apply filtered_by_value.
Qed.

Lemma onSearchInput_view (e : Event) (w : World) :
  filteredItems (this (snd (onSearchInput e w)))
  = match toLowerCase (trim (Spec.selected (target e))) with
    | EmptyString => Spec.filter_view (Spec.selected (filterSelect (this w))) (items (this w))
    | q => Spec.search_view q (items (this w))
    end.
Proof.
  destruct (onSearchInput_fields e w) as (_ & Hf & _). cbv zeta in Hf.
  rewrite Hf, target_value_selected.
  destruct (toLowerCase (trim (Spec.selected (target e)))) as [|c q];
    cbn [truthy negb]; [apply onFilterChange_view|].
  unfold Spec.search_view.
  apply filter_ext. intros it. apply search_matches_spec. discriminate.
Qed.

(** *** Filtering *)

(** C4.  [onFilterChange] leaves in [filteredItems] exactly the view the
    selected value describes: for a non-empty value, the entries of [items]
    (in their order) whose category equals the value or whose tags contain
    it, case-insensitively; for the empty value, all of [items]. *)
Theorem onFilterChange_selects_view (e : Event) (w : World) :
  filteredItems (this (snd (onFilterChange e w)))
  = Spec.filter_view (Spec.selected (target e)) (items (this w)).
Proof.
  destruct (onFilterChange_fields e w) as (_ & Hf & _).
  rewrite Hf, <- target_value_selected. apply filtered_by_value.
Qed.

(** *** Searching *)

(** C5.  With [q] the trimmed, lower-cased query: a non-empty [q] leaves in
    [filteredItems] exactly the entries of [items] whose title or content
    contains [q], case-insensitively; an empty [q] leaves the view of the
    value currently selected in the filter control. *)
Theorem onSearchInput_selects_view (e : Event) (w : World) :
  filteredItems (this (snd (onSearchInput e w)))
  = match toLowerCase (trim (Spec.selected (target e))) with
    | EmptyString => Spec.filter_view (Spec.selected (filterSelect (this w))) (items (this w))
    | q => Spec.search_view q (items (this w))
    end.
Proof.
  destruct (onSearchInput_fields e w) as (_ & Hf & _). cbv zeta in Hf.
  rewrite Hf, target_value_selected.
  destruct (toLowerCase (trim (Spec.selected (target e)))) as [|c q] eqn:Eq.
  - cbn [truthy negb]. apply onFilterChange_view.
  - cbn [truthy negb]. unfold Spec.search_view.
    apply filter_ext. intros it. apply search_matches_spec. discriminate.
Qed.

(** *** Rendering *)


(** *** Pagination is reset *)







(** *** Sorting *)

(** C9.  [onSortChange] leaves in [filteredItems] a permutation of what was
    there; under a criterion other than [date], [reading_time] and
    [category] it leaves the very same sequence. *)
Theorem onSortChange_permutes (e : Event) (w : World) :
  Permutation (filteredItems (this w)) (filteredItems (this (snd (onSortChange e w))))
  /\ (target_value e <> "date" ->
      target_value e <> "reading_time" ->
      target_value e <> "category" ->
      filteredItems (this (snd (onSortChange e w))) = filteredItems (this w)).
Proof.
  destruct (onSortChange_fields e w) as (_ & Hf & _). rewrite Hf. split.
  - apply sort_permutation.
  - intros Hd Hr Hc. rewrite (comparator_default _ Hd Hr Hc).
    apply sort_never_after. intros a b. unfold sort_compare, by_nothing. lia.
Qed.

(** C10.  None of the three handlers writes [items]. *)
Theorem handlers_keep_items (e : Event) (w : World) :
  items (this (snd (onSortChange e w))) = items (this w)
  /\ items (this (snd (onFilterChange e w))) = items (this w)
  /\ items (this (snd (onSearchInput e w))) = items (this w).
Proof.
  repeat split.
  - apply onSortChange_fields.
  - apply onFilterChange_fields.
  - apply onSearchInput_fields.
Qed.

(** *** The retry loop *)

Lemma attempt_body_failure (w : World) (e : Error) :
  Spec.failure_of (Spec.next_response w) = Some e ->
  attempt_body w = (Throw e, Spec.after_fetch w).
Proof.
  unfold Spec.next_response, Spec.after_fetch, attempt_body, fetch, res_json. run.
  destruct (network (browser w) (requests (browser w))) as [e'|[] [v|e']]; cbn;
    try (intros [= <-]; reflexivity).
  destruct v; cbn; intros [= <-]; reflexivity.
Qed.

Lemma attempt_body_success (w : World) (d : list BlogEntry) :
  Spec.payload_of (Spec.next_response w) = Some d ->
  exists st,
    attempt_body w =
    (Ok tt,
     mkWorld (set_filteredItems d (set_items d (this w)))
       (mkBrowser st (now (browser w)) (network (browser w)) (S (requests (browser w)))
          (log (browser w) ++ [Fetch (apiUrl (this w))]))).
Proof.
  unfold Spec.next_response, attempt_body, fetch, res_json, localStorage_setItem, Date_now. run.
  destruct (network (browser w) (requests (browser w))) as [e'|[] [v|e']]; cbn;
    try discriminate.
  destruct v; cbn; try discriminate. intros [= <-].
  destruct (accessible (localStorage (browser w)) && writable (localStorage (browser w)));
    cbn; eexists; reflexivity.
Qed.

(** One more iteration of the loop, written out. *)
Lemma retry_loop_step (fuel : nat) (attempt : Z) (w : World) :
  attempt <= maxAttempts ->
  retry_loop (S fuel) attempt w =
  match attempt_body w with
  | (Ok a, w') => (Ok a, w')
  | (Throw err, w') =>
      if attempt <? maxAttempts
      then retry_loop fuel (attempt + 1) (Spec.after_sleep (300 * attempt) w')
      else (Throw err, w')
  end.
Proof.
  intros Hle. cbn [retry_loop].
  destruct (Z.leb_spec attempt maxAttempts) as [_|Hgt]; [|lia].
  unfold try_catch. destruct (attempt_body w) as [[a|err] w']; [reflexivity|].
  destruct (attempt <? maxAttempts); reflexivity.
Qed.

(** The schedule of the retry loop: each failed exchange but the third is
    followed by a wait and another request; the third failure is thrown; a
    successful exchange ends the loop. *)
Lemma retry_schedule (w : World) :
  let url := apiUrl (this w) in
  let r (k : nat) := network (browser w) (requests (browser w) + k)%nat in
  let w' := snd (fetch_from_network w) in
  (forall e1 e2 e3,
     Spec.failure_of (r 0%nat) = Some e1 ->
     Spec.failure_of (r 1%nat) = Some e2 ->
     Spec.failure_of (r 2%nat) = Some e3 ->
     fst (fetch_from_network w) = Throw e3 /\
     log (browser w') = (log (browser w) ++ [Fetch url; Sleep 300; Fetch url; Sleep 600; Fetch url])%list)
  /\
  (forall d,
     Spec.payload_of (r 0%nat) = Some d ->
     fst (fetch_from_network w) = Ok tt /\
     items (this w') = d /\ filteredItems (this w') = d /\
     log (browser w') = (log (browser w) ++ [Fetch url])%list)
  /\
  (forall e1 d,
     Spec.failure_of (r 0%nat) = Some e1 ->
     Spec.payload_of (r 1%nat) = Some d ->
     fst (fetch_from_network w) = Ok tt /\
     items (this w') = d /\ filteredItems (this w') = d /\
     log (browser w') = (log (browser w) ++ [Fetch url; Sleep 300; Fetch url])%list)
  /\
  (forall e1 e2 d,
     Spec.failure_of (r 0%nat) = Some e1 ->
     Spec.failure_of (r 1%nat) = Some e2 ->
     Spec.payload_of (r 2%nat) = Some d ->
     fst (fetch_from_network w) = Ok tt /\
     items (this w') = d /\ filteredItems (this w') = d /\
     log (browser w') = (log (browser w) ++ [Fetch url; Sleep 300; Fetch url; Sleep 600; Fetch url])%list).
Proof.
  cbv zeta. unfold fetch_from_network.
  change (Z.to_nat maxAttempts) with 3%nat.
  rewrite Nat.add_0_r.
  replace (requests (browser w) + 1)%nat with (S (requests (browser w))) by lia.
  replace (requests (browser w) + 2)%nat with (S (S (requests (browser w)))) by lia.
  repeat split.
  all: intros.
  all: repeat
         (first
            [ rewrite retry_loop_step by (unfold maxAttempts; lia)
            | erewrite attempt_body_failure by eassumption
            | match goal with
              | Hd : Spec.payload_of ?r = Some ?d |- context [attempt_body ?w1] =>
                  let st := fresh "st" in
                  let E := fresh "E" in
                  destruct (attempt_body_success w1 d Hd) as [st E]; rewrite E; clear E
              end ];
          cbn [Z.ltb Z.compare Pos.compare Pos.compare_cont Z.add Z.mul Pos.add Pos.mul
               Pos.succ Pos.add_carry maxAttempts]).
  all: cbn; rewrite <- ?app_assoc; reflexivity.
Qed.

(** *** The cache *)

Lemma read_cache_fresh (w : World) (d : list BlogEntry) :
  Spec.fresh_envelope w d ->
  read_cache w = (Ok true, mkWorld (set_filteredItems d (set_items d (this w))) (browser w)).
Proof.
  intros (s & props & t & Hs & Hne & Hp & Hd & Ht & Hage).
  unfold Spec.stored in Hs.
  unfold read_cache, localStorage_getItem, parse, Date_now, ToNumber. run.
  destruct (accessible (localStorage (browser w))); [|discriminate].
  cbn. rewrite Hs. cbn.
  destruct s as [|c s]; [congruence|]. cbn [truthy].
  rewrite Hp. cbn. rewrite Hd. cbn. rewrite Ht. cbn.
  destruct (Z.ltb_spec (now (browser w) - t) 600000) as [_|Hge]; [reflexivity|lia].
Qed.

(** An unusable cache makes the first [try] fall through, or throw, with
    nothing written. *)
Lemma read_cache_unusable (w : World) :
  Spec.unusable_cache w ->
  try_catch read_cache (fun _ => ret false) w = (Ok false, w).
Proof.
  unfold read_cache, localStorage_getItem, parse, Date_now, ToNumber. run.
  intros [Hs | Hs | s Hs Hp | s v Hs Hp Hd | s props Hs Hp Ht | s props t Hs Hp Ht Hage];
    unfold Spec.stored in Hs;
    destruct (accessible (localStorage (browser w))); cbn; try reflexivity;
    try discriminate; rewrite Hs; cbn; try reflexivity.
  - destruct (truthy s); [|reflexivity]. now rewrite Hp.
  - destruct (truthy s); [|reflexivity]. rewrite Hp. cbn.
    destruct (value_truthy v); [|reflexivity]. now rewrite Hd.
  - destruct (truthy s); [|reflexivity]. rewrite Hp. cbn.
    destruct (isArray (lookup "data" props)); [|reflexivity]. cbn.
    now rewrite Ht.
  - destruct (truthy s); [|reflexivity]. rewrite Hp. cbn.
    destruct (isArray (lookup "data" props)); [|reflexivity]. cbn.
    rewrite Ht. cbn.
    destruct (Z.ltb_spec (now (browser w) - t) 600000) as [Hlt|_]; [lia|reflexivity].
Qed.

(** Every pass through the [try] of the loop sends one request. *)
Lemma attempt_body_log (w : World) :
  log (browser (snd (attempt_body w)))
  = (log (browser w) ++ [Fetch (apiUrl (this w))])%list.
Proof.
  unfold attempt_body, fetch, res_json, localStorage_setItem, Date_now. run.
  destruct (network (browser w) (requests (browser w))) as [e'|[] [v|e']]; cbn;
    try reflexivity.
  destruct v; cbn; try reflexivity.
  destruct (accessible (localStorage (browser w)) && writable (localStorage (browser w)));
    reflexivity.
Qed.

Lemma retry_loop_log_grows (fuel : nat) (attempt : Z) (w : World) :
  exists more, log (browser (snd (retry_loop fuel attempt w))) = (log (browser w) ++ more)%list.
Proof.
  revert attempt w. induction fuel as [|fuel IH]; intros attempt w.
  - exists []. cbn. now rewrite app_nil_r.
  - destruct (Z.leb_spec attempt maxAttempts) as [Hle|Hgt].
    + rewrite retry_loop_step by exact Hle.
      pose proof (attempt_body_log w) as L.
      destruct (attempt_body w) as [[a|err] w1]; cbn [snd] in L |- *.
      * eexists. exact L.
      * destruct (attempt <? maxAttempts).
        -- destruct (IH (attempt + 1) (Spec.after_sleep (300 * attempt) w1)) as [more Hm].
           rewrite Hm. cbn. rewrite L, <- !app_assoc. eexists. reflexivity.
        -- eexists. exact L.
    + exists []. cbn [retry_loop].
      destruct (Z.leb_spec attempt maxAttempts) as [Hle|_]; [lia|].
      cbn. now rewrite app_nil_r.
Qed.

(** The network path begins with a request. *)
Lemma fetch_from_network_requests (w : World) :
  exists more,
    log (browser (snd (fetch_from_network w)))
    = (log (browser w) ++ Fetch (apiUrl (this w)) :: more)%list.
Proof.
  unfold fetch_from_network. change (Z.to_nat maxAttempts) with 3%nat.
  rewrite retry_loop_step by (unfold maxAttempts; lia).
  pose proof (attempt_body_log w) as L.
  destruct (attempt_body w) as [[a|err] w1]; cbn [snd] in L |- *.
  - exists []. exact L.
  - cbn [Z.ltb Z.compare Pos.compare Pos.compare_cont maxAttempts].
    destruct (retry_loop_log_grows 2 (1 + 1) (Spec.after_sleep (300 * 1) w1)) as [more Hm].
    rewrite Hm. cbn. rewrite L, <- !app_assoc. eexists. reflexivity.
Qed.

(** C1.  A fresh envelope in the cache becomes [items] and
    [filteredItems] as it is, and nothing is asked of the network; with
    an absent, corrupt or stale cache, a request goes out. *)
Theorem fetchData_cache (w : World) :
  (forall d,
     Spec.fresh_envelope w d ->
     fst (fetchData w) = Ok tt /\
     items (this (snd (fetchData w))) = d /\
     filteredItems (this (snd (fetchData w))) = d /\
     browser (snd (fetchData w)) = browser w)
  /\
  (Spec.unusable_cache w ->
   exists more,
     log (browser (snd (fetchData w)))
     = (log (browser w) ++ Fetch (apiUrl (this w)) :: more)%list).
Proof.
  split.
  - intros d Hf. unfold fetchData, bind, try_catch.
    rewrite (read_cache_fresh w d Hf). cbn. repeat split; reflexivity.
  - intros Hu. unfold fetchData, bind.
    rewrite (read_cache_unusable w Hu). apply fetch_from_network_requests.
Qed.

(** C2.  When the cache is of no use and the first three exchanges fail,
    [fetchData] sends three requests, waiting 300ms after the first failure
    and 600ms after the second, and throws the error of the third; when an
    exchange succeeds, its payload becomes [items] and [filteredItems] and
    no further request goes out. *)
Theorem fetchData_retries_three_times (w : World) :
  Spec.unusable_cache w ->
  let url := apiUrl (this w) in
  let r (k : nat) := network (browser w) (requests (browser w) + k)%nat in
  let w' := snd (fetchData w) in
  (forall e1 e2 e3,
     Spec.failure_of (r 0%nat) = Some e1 ->
     Spec.failure_of (r 1%nat) = Some e2 ->
     Spec.failure_of (r 2%nat) = Some e3 ->
     fst (fetchData w) = Throw e3 /\
     log (browser w')
     = (log (browser w) ++ [Fetch url; Sleep 300; Fetch url; Sleep 600; Fetch url])%list)
  /\
  (forall d,
     Spec.payload_of (r 0%nat) = Some d ->
     fst (fetchData w) = Ok tt /\
     items (this w') = d /\ filteredItems (this w') = d /\
     log (browser w') = (log (browser w) ++ [Fetch url])%list)
  /\
  (forall e1 d,
     Spec.failure_of (r 0%nat) = Some e1 ->
     Spec.payload_of (r 1%nat) = Some d ->
     fst (fetchData w) = Ok tt /\
     items (this w') = d /\ filteredItems (this w') = d /\
     log (browser w') = (log (browser w) ++ [Fetch url; Sleep 300; Fetch url])%list)
  /\
  (forall e1 e2 d,
     Spec.failure_of (r 0%nat) = Some e1 ->
     Spec.failure_of (r 1%nat) = Some e2 ->
     Spec.payload_of (r 2%nat) = Some d ->
     fst (fetchData w) = Ok tt /\
     items (this w') = d /\ filteredItems (this w') = d /\
     log (browser w')
     = (log (browser w) ++ [Fetch url; Sleep 300; Fetch url; Sleep 600; Fetch url])%list).
Proof.
  intros Hu. cbv zeta.
  assert (E : fetchData w = fetch_from_network w).
  { unfold fetchData, bind. now rewrite (read_cache_unusable w Hu). }
  rewrite E. apply retry_schedule.
Qed.

(** *** Frames: what a computation leaves alone *)

Section Frames.
Variable R : Component -> Component -> Prop.
Hypothesis R_refl : forall c, R c c.
Hypothesis R_trans : forall a b c, R a b -> R b c -> R a c.

Lemma preserves_ret {A} (a : A) : Spec.preserves R (ret a).
Proof. intros w. apply R_refl. Qed.

Lemma preserves_throw {A} (e : Error) : Spec.preserves R (@throw A e).
Proof. intros w. apply R_refl. Qed.

Lemma preserves_get_this : Spec.preserves R get_this.
Proof. intros w. apply R_refl. Qed.

Lemma preserves_get_browser : Spec.preserves R get_browser.
Proof. intros w. apply R_refl. Qed.

Lemma preserves_modify_browser (f : Browser -> Browser) :
  Spec.preserves R (modify_browser f).
Proof. intros w. apply R_refl. Qed.

Lemma preserves_modify_this (f : Component -> Component) :
  (forall c, R c (f c)) -> Spec.preserves R (modify_this f).
Proof. intros Hf w. apply Hf. Qed.

Lemma preserves_bind {A B} (m : M A) (k : A -> M B) :
  Spec.preserves R m -> (forall a, Spec.preserves R (k a)) ->
  Spec.preserves R (bind m k).
Proof.
  intros Hm Hk w. unfold bind. specialize (Hm w).
  destruct (m w) as [[a|e] w1]; cbn [snd] in *.
  - eapply R_trans; [exact Hm | apply Hk].
  - exact Hm.
Qed.

Lemma preserves_try_catch {A} (m : M A) (h : Error -> M A) :
  Spec.preserves R m -> (forall e, Spec.preserves R (h e)) ->
  Spec.preserves R (try_catch m h).
Proof.
  intros Hm Hh w. unfold try_catch. specialize (Hm w).
  destruct (m w) as [[a|e] w1]; cbn [snd] in *.
  - exact Hm.
  - eapply R_trans; [exact Hm | apply Hh].
Qed.

Lemma preserves_try_finally {A} (m : M A) (f : M unit) :
  Spec.preserves R m -> Spec.preserves R f ->
  Spec.preserves R (try_finally m f).
Proof.
  intros Hm Hf w. unfold try_finally. specialize (Hm w).
  destruct (m w) as [r w1]; cbn [snd] in *. specialize (Hf w1).
  destruct (f w1) as [[u|e] w2]; cbn [snd] in *; eapply R_trans; eassumption.
Qed.
End Frames.

(** Breaks a computation into its parts, down to the writes to [this]. *)
Ltac frame R_refl R_trans :=
  repeat first
    [ progress intros
    | apply (preserves_bind _ R_trans)
    | apply (preserves_try_catch _ R_trans)
    | apply (preserves_ret _ R_refl)
    | apply (preserves_throw _ R_refl)
    | apply (preserves_get_this _ R_refl)
    | apply (preserves_get_browser _ R_refl)
    | apply (preserves_modify_browser _ R_refl)
    | apply preserves_modify_this
    | match goal with
      | |- Spec.preserves _ (match ?x with _ => _ end) => destruct x
      end ].

Lemma same_but_items_refl (c : Component) : Spec.same_but_items c c.
Proof. destruct c. reflexivity. Qed.

Lemma same_but_items_trans (a b c : Component) :
  Spec.same_but_items a b -> Spec.same_but_items b c -> Spec.same_but_items a c.
Proof.
  unfold Spec.same_but_items. intros Hab Hbc. rewrite Hab in Hbc. exact Hbc.
Qed.

Lemma attempt_body_only_items : Spec.preserves Spec.same_but_items attempt_body.
Proof.
  unfold attempt_body, fetch, res_json, localStorage_setItem, Date_now, isArray.
  frame same_but_items_refl same_but_items_trans;
    destruct c; reflexivity.
Qed.

Lemma retry_loop_only_items (fuel : nat) (attempt : Z) :
  Spec.preserves Spec.same_but_items (retry_loop fuel attempt).
Proof.
  revert attempt. induction fuel as [|fuel IH]; intros attempt; cbn [retry_loop].
  - apply (preserves_ret _ same_but_items_refl).
  - destruct (attempt <=? maxAttempts); [|apply (preserves_ret _ same_but_items_refl)].
    apply (preserves_try_catch _ same_but_items_trans); [apply attempt_body_only_items|].
    intros err. destruct (attempt <? maxAttempts).
    + apply (preserves_bind _ same_but_items_trans); [|intros _; apply IH].
      unfold sleep. apply (preserves_modify_browser _ same_but_items_refl).
    + apply (preserves_throw _ same_but_items_refl).
Qed.

Lemma read_cache_only_items : Spec.preserves Spec.same_but_items read_cache.
Proof.
  unfold read_cache, localStorage_getItem, parse, Date_now, ToNumber.
  frame same_but_items_refl same_but_items_trans;
    destruct c; reflexivity.
Qed.

(** [fetchData] writes no field of [this] but [items] and [filteredItems]. *)
Lemma fetchData_only_items : Spec.preserves Spec.same_but_items fetchData.
Proof.
  unfold fetchData, fetch_from_network.
  apply (preserves_bind _ same_but_items_trans).
  - apply (preserves_try_catch _ same_but_items_trans); [apply read_cache_only_items|].
    intros e. apply (preserves_ret _ same_but_items_refl).
  - intros []; [apply (preserves_ret _ same_but_items_refl) | apply retry_loop_only_items].
Qed.

(** *** Initialisation *)

Lemma preserves_weaken {A} (R R' : Component -> Component -> Prop) (m : M A) :
  (forall c c', R c c' -> R' c c') -> Spec.preserves R m -> Spec.preserves R' m.
Proof. intros HR Hm w. apply HR, Hm. Qed.

Lemma same_indicator_refl (c : Component) : Spec.same_indicator c c.
Proof. reflexivity. Qed.

Lemma same_indicator_trans (a b c : Component) :
  Spec.same_indicator a b -> Spec.same_indicator b c -> Spec.same_indicator a c.
Proof. unfold Spec.same_indicator. intros Hab Hbc. now rewrite Hbc. Qed.

Lemma same_but_items_indicator (c c' : Component) :
  Spec.same_but_items c c' -> Spec.same_indicator c c'.
Proof. unfold Spec.same_but_items, Spec.same_indicator. intros ->. reflexivity. Qed.

Lemma render_same_indicator : Spec.preserves Spec.same_indicator render.
Proof.
  intros w. unfold Spec.same_indicator.
  pose proof (render_frame w) as F. cbv zeta in F.
  destruct F as (_ & _ & _ & _ & -> & _). reflexivity.
Qed.

Lemma showError_same_indicator (err : Error) : Spec.preserves Spec.same_indicator (showError err).
Proof.
  unfold showError. frame same_indicator_refl same_indicator_trans; try reflexivity.
Qed.

Lemma showError_returns (err : Error) (w : World) : fst (showError err w) = Ok tt.
Proof. unfold showError. run. now destruct (errorContainer (this w)). Qed.

(** The part of [init] under [try ... catch]. *)
Lemma init_guarded_same_indicator :
  Spec.preserves Spec.same_indicator
    (try_catch (showLoading ;; fetchData ;; setupEventListeners ;; render)
       (fun err => showError err)).
Proof.
  apply (preserves_try_catch _ same_indicator_trans); [|apply showError_same_indicator].
  apply (preserves_bind _ same_indicator_trans).
  { unfold showLoading. apply preserves_modify_this. intros c.
    unfold Spec.same_indicator. cbn. now destruct (loadingIndicator c). }
  intros _. apply (preserves_bind _ same_indicator_trans).
  { apply (preserves_weaken Spec.same_but_items);
      [apply same_but_items_indicator | apply fetchData_only_items]. }
  intros _. apply (preserves_bind _ same_indicator_trans); [|intros _; apply render_same_indicator].
  unfold setupEventListeners, addEventListener.
  frame same_indicator_refl same_indicator_trans; try reflexivity.
Qed.

Lemma init_guarded_returns (w : World) :
  fst (try_catch (showLoading ;; fetchData ;; setupEventListeners ;; render)
         (fun err => showError err) w) = Ok tt.
Proof.
  unfold try_catch.
  destruct ((showLoading ;; fetchData ;; setupEventListeners ;; render) w) as [[[]|err] w1].
  - reflexivity.
  - apply showError_returns.
Qed.

Lemma classList_add_hidden (el : Element) : is_hidden (classList_add "hidden" el) = true.
Proof.
  unfold is_hidden, classList_add.
  destruct (array_includes (classList el) "hidden") eqn:E; [exact E|].
  cbn. unfold array_includes. rewrite existsb_app. cbn. apply orb_true_r.
Qed.

(** C7.  [init] never throws; at its end the loading indicator, where
    there is one, is hidden; and an error thrown by [fetchData] ends up in
    [showError]. *)
Theorem init_hides_loading_and_catches (w : World) :
  fst (init w) = Ok tt
  /\ option_map is_hidden (loadingIndicator (this (snd (init w))))
     = option_map (fun _ => true) (loadingIndicator (this w))
  /\ (forall err w1,
        fetchData (snd (showLoading w)) = (Throw err, w1) ->
        snd (init w) = snd (hideLoading (snd (showError err w1)))).
Proof.
  unfold init, try_finally.
  pose proof (init_guarded_returns w) as Hr.
  pose proof (init_guarded_same_indicator w) as Hi.
  split; [|split].
  - destruct (try_catch _ _ w) as [r wm]; cbn [fst snd] in *.
    unfold hideLoading, modify_this. cbn. exact Hr.
  - destruct (try_catch _ _ w) as [r wm]; cbn [fst snd] in *.
    unfold hideLoading, modify_this. cbn.
    unfold Spec.same_indicator in Hi.
    destruct (loadingIndicator (this wm)) as [el|], (loadingIndicator (this w));
      try discriminate; cbn; [|reflexivity].
    now rewrite classList_add_hidden.
  - intros err w1 Hf. clear Hr Hi.
    unfold try_catch. unfold bind at 1. unfold showLoading at 1. unfold modify_this at 1.
    unfold showLoading, modify_this in Hf. cbn [snd] in Hf.
    unfold bind at 1. rewrite Hf.
    pose proof (showError_returns err w1) as Hs.
    destruct (showError err w1) as [r w2]; cbn [fst snd] in *.
    unfold hideLoading, modify_this. reflexivity.
Qed.

End Properties.

(** C3.  The [reading_time] comparator reads ["12"] as [NaN], not as 12:
    the fallback match has no group 1.  Sorting the four reading times
    ["5 min read", "12", 7, "no time"] then leaves them as they were. *)
Theorem reading_time_fallback_is_NaN :
  parseMinutes (Some (RTString "12")) = NaN
  /\ map reading_time (sort (@comparator Sample.host "reading_time") Sample.blogs)
     = [Some (RTString "5 min read"); Some (RTString "12");
        Some (RTNumber 7); Some (RTString "no time")].
Proof. split; reflexivity. Qed.

(** Witness of C9: an empty criterion keeps the sample order. *)
Lemma onSortChange_permutes_witness :
  filteredItems (this (snd (@onSortChange Sample.host (mkEvent (Some (Sample.node ""))) Sample.loaded)))
  = Sample.blogs.
Proof.
  apply (@onSortChange_permutes Sample.host (mkEvent (Some (Sample.node ""))) Sample.loaded);
    cbn; discriminate.
Defined.

(** *** Witnesses and worked examples *)

(** Witness of C1: the sample cache, 599999ms old, is adopted without a
    request; 600000ms old, it is passed over and a request goes out. *)
Lemma fetchData_cache_witness :
  (fst (@fetchData Sample.host (Sample.cached_at 600999)) = Ok tt /\
   items (this (snd (@fetchData Sample.host (Sample.cached_at 600999)))) = Sample.blogs /\
   filteredItems (this (snd (@fetchData Sample.host (Sample.cached_at 600999)))) = Sample.blogs /\
   browser (snd (@fetchData Sample.host (Sample.cached_at 600999)))
   = browser (Sample.cached_at 600999))
  /\
  (exists more,
     log (browser (snd (@fetchData Sample.host (Sample.cached_at 601000))))
     = ([] ++ Fetch Sample.url :: more)%list).
Proof.
  split.
  - apply (@fetchData_cache Sample.host (Sample.cached_at 600999)).
    exists "ENVELOPE", [("data", VArray Sample.blogs); ("timestamp", VNumber 1000)], 1000.
    repeat split; try reflexivity. discriminate.
  - apply (@fetchData_cache Sample.host (Sample.cached_at 601000)).
    apply (@Spec.cache_stale Sample.host _ "ENVELOPE"
             [("data", VArray Sample.blogs); ("timestamp", VNumber 1000)] 1000);
      reflexivity.
Defined.

(** Witness of C2: offline and without a cache, three requests go out and
    the last error is thrown; when the third exchange succeeds, its payload
    is adopted. *)
Lemma fetchData_retries_three_times_witness :
  (fst (@fetchData Sample.host (Sample.uncached Sample.offline)) = Throw Sample.failure /\
   log (browser (snd (@fetchData Sample.host (Sample.uncached Sample.offline))))
   = ([] ++ [Fetch Sample.url; Sleep 300; Fetch Sample.url; Sleep 600; Fetch Sample.url])%list)
  /\
  (fst (@fetchData Sample.host (Sample.uncached (Sample.online_after 2))) = Ok tt /\
   items (this (snd (@fetchData Sample.host (Sample.uncached (Sample.online_after 2)))))
   = Sample.blogs /\
   filteredItems (this (snd (@fetchData Sample.host (Sample.uncached (Sample.online_after 2)))))
   = Sample.blogs /\
   log (browser (snd (@fetchData Sample.host (Sample.uncached (Sample.online_after 2)))))
   = ([] ++ [Fetch Sample.url; Sleep 300; Fetch Sample.url; Sleep 600; Fetch Sample.url])%list).
Proof.
  split.
  - apply (proj1 (@fetchData_retries_three_times Sample.host (Sample.uncached Sample.offline)
                    (@Spec.cache_absent Sample.host (Sample.uncached Sample.offline) eq_refl))
             Sample.failure Sample.failure Sample.failure); reflexivity.
  - apply (proj2 (proj2 (proj2
             (@fetchData_retries_three_times Sample.host (Sample.uncached (Sample.online_after 2))
                (@Spec.cache_absent Sample.host (Sample.uncached (Sample.online_after 2)) eq_refl))))
             (mkError "Failed to fetch blogs") (mkError "Failed to fetch blogs") Sample.blogs);
      reflexivity.
Defined.

(** Witness of C7: offline, the error of [fetchData] is shown and the
    loading indicator hidden. *)
Lemma init_hides_loading_and_catches_witness :
  snd (@init Sample.host (Sample.uncached Sample.offline))
  = snd (hideLoading
           (snd (showError Sample.failure
                   (snd (@fetchData Sample.host
                           (snd (showLoading (Sample.uncached Sample.offline)))))))).
Proof.
  apply (proj2 (proj2 (@init_hides_loading_and_catches Sample.host
                          (Sample.uncached Sample.offline)))).
  reflexivity.
Defined.

Example offline_error_is_shown :
  option_map textContent
    (errorContainer (this (snd (@init Sample.host (Sample.uncached Sample.offline)))))
  = Some "Error: Failed to fetch".
Proof. reflexivity. Qed.

Example filter_gadgets :
  filteredItems (this (snd (@onFilterChange Sample.host
                              (mkEvent (Some (Sample.node "Gadgets"))) Sample.loaded)))
  = [Sample.e5; Sample.e7].
Proof. reflexivity. Qed.

Example search_react :
  filteredItems (this (snd (@onSearchInput Sample.host
                              (mkEvent (Some (Sample.node " React "))) Sample.loaded)))
  = [Sample.e5].
Proof. reflexivity. Qed.

(** The filter control of the sample component has [Startups] selected. *)
Example cleared_search_restores_filter :
  filteredItems (this (snd (@onSearchInput Sample.host
                              (mkEvent (Some (Sample.node "  "))) Sample.loaded)))
  = [Sample.e12].
Proof. reflexivity. Qed.

Example parseMinutes_examples :
  parseMinutes (Some (RTString "5 min read")) = Num 5
  /\ parseMinutes (Some (RTNumber 7)) = Num 7
  /\ parseMinutes (Some (RTString "no time")) = Num MAX_SAFE_INTEGER
  /\ parseMinutes (Some (RTString "about 12MIN")) = Num 12.
Proof. repeat split; reflexivity. Qed.

Example render_empty_view :
  option_map innerHTML
    (listContainer (this (snd (@render Sample.host (mkWorld Sample.component
                                                       (Sample.browser_with [] 0 Sample.offline))))))
  = Some no_results.
Proof. reflexivity. Qed.


(* ================================================================== *)
(** ** Further properties of the component *)
(* ================================================================== *)

(** *** Sorting with an order *)

Section OrderedSort.
Context {A : Type} (cmp : A -> A -> number) (D : A -> Prop).

(** On the elements in [D] the comparator is a total preorder. *)
Hypothesis total_D :
  forall a b, D a -> D b -> 0 < sort_compare cmp a b -> sort_compare cmp b a <= 0.
Hypothesis trans_D :
  forall a b c, D a -> D b -> D c ->
    sort_compare cmp a b <= 0 -> sort_compare cmp b c <= 0 -> sort_compare cmp a c <= 0.

Let before (a b : A) : Prop := sort_compare cmp a b <= 0.

Lemma insert_Forall (P : A -> Prop) (x : A) (l : list A) :
  P x -> Forall P l -> Forall P (insert cmp x l).
Proof.
  intros Hx Hl. apply (Permutation_Forall (insert_permutation cmp x l)).
  now constructor.
Qed.

Lemma sort_Forall (P : A -> Prop) (l : list A) :
  Forall P l -> Forall P (sort cmp l).
Proof. intros Hl. now apply (Permutation_Forall (sort_permutation cmp l)). Qed.

Lemma insert_sorted (x : A) (l : list A) :
  D x -> Forall D l -> StronglySorted before l -> StronglySorted before (insert cmp x l).
Proof.
  intros Hx Hl Hs. induction Hs as [|y l Hs IH Hy]; cbn [insert].
  - constructor; constructor.
  - inversion Hl as [|? ? Dy Dl]; subst.
    destruct (Z.leb_spec (sort_compare cmp x y) 0) as [Hle|Hgt].
    + constructor; [now constructor|].
      constructor; [exact Hle|].
      rewrite Forall_forall in Hy, Dl |- *. intros z Hz.
      apply (trans_D x y z); auto. now apply Hy.
    + constructor; [now apply IH|].
      apply insert_Forall; [|exact Hy].
      now apply total_D.
Qed.

Lemma sort_sorted (l : list A) :
  Forall D l -> StronglySorted before (sort cmp l).
Proof.
  induction l as [|x l IH]; intros Hl; cbn [sort]; [constructor|].
  inversion Hl; subst. apply insert_sorted; auto. now apply sort_Forall.
Qed.

(** A sorted array is left as it is. *)
Lemma sort_fixed (l : list A) : StronglySorted before l -> sort cmp l = l.
Proof.
  induction 1 as [|x l Hs IH Hx]; cbn [sort]; [reflexivity|].
  rewrite IH. destruct l as [|y l]; [reflexivity|]. cbn [insert].
  inversion Hx as [|? ? Hxy _]; subst. unfold before in Hxy.
  destruct (Z.leb_spec (sort_compare cmp x y) 0); [reflexivity|lia].
Qed.

(** Stability: elements that compare as equal keep their order. *)
Lemma insert_stable (p : A -> bool) (x : A) (l : list A) :
  (forall y, In y l -> p x = true -> p y = true -> sort_compare cmp x y <= 0) ->
  filter p (insert cmp x l) = filter p (x :: l).
Proof.
  induction l as [|y l IH]; intros Heq; [reflexivity|]. cbn [insert].
  destruct (Z.leb_spec (sort_compare cmp x y) 0) as [Hle|Hgt]; [reflexivity|].
  cbn [filter]. rewrite IH by (intros z Hz; apply Heq; now right). cbn [filter].
  destruct (p x) eqn:Px, (p y) eqn:Py; try reflexivity.
  specialize (Heq y (or_introl eq_refl) eq_refl Py). lia.
Qed.

Lemma sort_stable (p : A -> bool) (l : list A) :
  (forall a b, In a l -> In b l -> p a = true -> p b = true -> sort_compare cmp a b <= 0) ->
  filter p (sort cmp l) = filter p l.
Proof.
  induction l as [|x l IH]; intros Heq; [reflexivity|]. cbn [sort].
  rewrite insert_stable.
  - cbn [filter]. rewrite IH; [reflexivity|].
    intros a b Ha Hb. apply Heq; now right.
  - intros y Hy. apply Heq; [now left|right].
    apply (Permutation_in _ (Permutation_sym (sort_permutation cmp l)) Hy).
Qed.

End OrderedSort.

Lemma StronglySorted_weaken {A : Type} (D : A -> Prop) (R R' : A -> A -> Prop) (l : list A) :
  (forall a b, D a -> D b -> R a b -> R' a b) ->
  Forall D l -> StronglySorted R l -> StronglySorted R' l.
Proof.
  intros HR Hl Hs. induction Hs as [|x l Hs IH Hx]; [constructor|].
  inversion Hl as [|? ? Dx Dl]; subst. constructor; [now apply IH|].
  rewrite Forall_forall in Hx, Dl |- *. intros y Hy. apply HR; auto.
Qed.

Lemma sort_idempotent {A : Type} (cmp : A -> A -> number) (D : A -> Prop) (l : list A) :
  (forall a b, D a -> D b -> 0 < sort_compare cmp a b -> sort_compare cmp b a <= 0) ->
  (forall a b c, D a -> D b -> D c ->
     sort_compare cmp a b <= 0 -> sort_compare cmp b c <= 0 -> sort_compare cmp a c <= 0) ->
  Forall D l -> sort cmp (sort cmp l) = sort cmp l.
Proof.
  intros Ht Hr Hl. apply sort_fixed. now apply (sort_sorted cmp D Ht Hr).
Qed.

Section SortCriteria.
Context `{Host}.

Lemma comparator_reading_time : comparator "reading_time" = by_reading_time.
Proof. reflexivity. Qed.

Lemma comparator_date : comparator "date" = by_date.
Proof. reflexivity. Qed.

Lemma comparator_category : comparator "category" = by_category.
Proof. reflexivity. Qed.

Lemma by_reading_time_minutes (a b : BlogEntry) :
  Keys.has_minutes a -> Keys.has_minutes b ->
  sort_compare by_reading_time a b = Keys.minutes a - Keys.minutes b.
Proof.
  unfold Keys.has_minutes, Keys.minutes, sort_compare, by_reading_time.
  destruct (parseMinutes (reading_time a)), (parseMinutes (reading_time b));
    cbn; congruence.
Qed.

Lemma by_date_time (a b : BlogEntry) :
  Keys.has_time a -> Keys.has_time b ->
  sort_compare by_date a b = Keys.time b - Keys.time a.
Proof.
  unfold Keys.has_time, Keys.time, sort_compare, by_date.
  destruct (Date_valueOf (published_date a)), (Date_valueOf (published_date b));
    cbn; congruence.
Qed.

(** X1.  When every entry in view has a numeric reading-time key, sorting
    by [reading_time] leaves the view in ascending order of that key, and
    entries with the same key keep their order. *)
Theorem sort_by_reading_time_ascending (e : Event) (w : World) :
  target_value e = "reading_time" ->
  Forall Keys.has_minutes (filteredItems (this w)) ->
  StronglySorted (fun a b => Keys.minutes a <= Keys.minutes b)
    (filteredItems (this (snd (onSortChange e w))))
  /\ forall k,
       filter (fun it => Keys.minutes it =? k) (filteredItems (this (snd (onSortChange e w))))
       = filter (fun it => Keys.minutes it =? k) (filteredItems (this w)).
Proof.
  intros He Hl. destruct (onSortChange_fields e w) as (_ & Hf & _).
  rewrite Hf, He, comparator_reading_time. split.
  - apply (StronglySorted_weaken Keys.has_minutes
             (fun a b => sort_compare by_reading_time a b <= 0)).
    + intros a b Ha Hb. rewrite by_reading_time_minutes by assumption. lia.
    + now apply sort_Forall.
    + apply (sort_sorted by_reading_time Keys.has_minutes); [| |exact Hl].
      * intros a b Ha Hb. rewrite !by_reading_time_minutes by assumption. lia.
      * intros a b c Ha Hb Hc. rewrite !by_reading_time_minutes by assumption. lia.
  - intros k. apply sort_stable. rewrite Forall_forall in Hl.
    intros a b Ha Hb Ka Kb. rewrite by_reading_time_minutes by auto.
    apply Z.eqb_eq in Ka, Kb. lia.
Qed.

(** X2.  When every entry in view has a valid date, sorting by [date]
    leaves the view newest first, and entries of the same instant keep
    their order. *)
Theorem sort_by_date_newest_first (e : Event) (w : World) :
  target_value e = "date" ->
  Forall Keys.has_time (filteredItems (this w)) ->
  StronglySorted (fun a b => Keys.time b <= Keys.time a)
    (filteredItems (this (snd (onSortChange e w))))
  /\ forall k,
       filter (fun it => Keys.time it =? k) (filteredItems (this (snd (onSortChange e w))))
       = filter (fun it => Keys.time it =? k) (filteredItems (this w)).
Proof.
  intros He Hl. destruct (onSortChange_fields e w) as (_ & Hf & _).
  rewrite Hf, He, comparator_date. split.
  - apply (StronglySorted_weaken Keys.has_time
             (fun a b => sort_compare by_date a b <= 0)).
    + intros a b Ha Hb. rewrite by_date_time by assumption. lia.
    + now apply sort_Forall.
    + apply (sort_sorted by_date Keys.has_time); [| |exact Hl].
      * intros a b Ha Hb. rewrite !by_date_time by assumption. lia.
      * intros a b c Ha Hb Hc. rewrite !by_date_time by assumption. lia.
  - intros k. apply sort_stable. rewrite Forall_forall in Hl.
    intros a b Ha Hb Ka Kb. rewrite by_date_time by auto.
    apply Z.eqb_eq in Ka, Kb. lia.
Qed.

(** X3.  When [localeCompare] orders strings, sorting by [category] leaves
    the view in the order of the lower-cased categories (a missing category
    counting as the empty string), and entries whose categories differ
    only in case keep their order. *)
Theorem sort_by_category_ordered (e : Event) (w : World) :
  Keys.collation_order ->
  target_value e = "category" ->
  StronglySorted
    (fun a b => localeCompare (Keys.category_key a) (Keys.category_key b) <= 0)
    (filteredItems (this (snd (onSortChange e w))))
  /\ forall k,
       filter (fun it => String.eqb (Keys.category_key it) k)
         (filteredItems (this (snd (onSortChange e w))))
       = filter (fun it => String.eqb (Keys.category_key it) k) (filteredItems (this w)).
Proof.
  intros [Ht Hr] He. destruct (onSortChange_fields e w) as (_ & Hf & _).
  rewrite Hf, He, comparator_category. split.
  - apply (sort_sorted by_category (fun _ => True)).
    + intros a b _ _. apply Ht.
    + intros a b c _ _ _. apply Hr.
    + apply Forall_forall. trivial.
  - intros k. apply sort_stable.
    assert (Hk : localeCompare k k <= 0).
    { destruct (Z.le_gt_cases (localeCompare k k) 0) as [Hle|Hgt]; [exact Hle|].
      apply Ht. lia. }
    intros a b _ _ Ka Kb. apply String.eqb_eq in Ka, Kb.
    unfold sort_compare, by_category, toString. fold (Keys.category_key a).
    fold (Keys.category_key b). now rewrite Ka, Kb.
Qed.

(** X4.  Choosing the same criterion a second time changes nothing, as
    long as the comparator orders the entries in view: numeric keys for
    [reading_time], valid dates for [date], an ordering [localeCompare]
    for [category]. *)
Theorem sort_again_is_noop (e : Event) (w : World) :
  (target_value e = "reading_time" /\ Forall Keys.has_minutes (filteredItems (this w))) \/
  (target_value e = "date" /\ Forall Keys.has_time (filteredItems (this w))) \/
  (target_value e = "category" /\ Keys.collation_order) ->
  filteredItems (this (snd (onSortChange e (snd (onSortChange e w)))))
  = filteredItems (this (snd (onSortChange e w))).
Proof.
  intros Hc.
  destruct (onSortChange_fields e (snd (onSortChange e w))) as (_ & Hf2 & _).
  destruct (onSortChange_fields e w) as (_ & Hf & _).
  rewrite Hf2, Hf.
  destruct Hc as [[He Hl] | [[He Hl] | [He [Ht Hr]]]]; rewrite He.
  - rewrite comparator_reading_time.
    apply (sort_idempotent by_reading_time Keys.has_minutes); [| |exact Hl].
    + intros a b Ha Hb. rewrite !by_reading_time_minutes by assumption. lia.
    + intros a b c Ha Hb Hc. rewrite !by_reading_time_minutes by assumption. lia.
  - rewrite comparator_date.
    apply (sort_idempotent by_date Keys.has_time); [| |exact Hl].
    + intros a b Ha Hb. rewrite !by_date_time by assumption. lia.
    + intros a b c Ha Hb Hc. rewrite !by_date_time by assumption. lia.
  - rewrite comparator_category.
    apply (sort_idempotent by_category (fun _ => True)).
    + intros a b _ _. apply Ht.
    + intros a b c _ _ _. apply Hr.
    + apply Forall_forall. trivial.
Qed.

End SortCriteria.

(** *** Reading times *)

Lemma toLowerCase_app (a b : string) :
  toLowerCase (a ++ b) = toLowerCase a ++ toLowerCase b.
Proof. induction a as [|c a IH]; cbn; [reflexivity | now rewrite IH]. Qed.

Lemma includes_app_r (a b q : string) :
  includes b q = true -> includes (a ++ b) q = true.
Proof.
  intros Hb. induction a as [|c a IH]; cbn; [exact Hb|].
  rewrite IH. apply orb_true_r.
Qed.

Lemma includes_startsWith (s q : string) : startsWith q s = true -> includes s q = true.
Proof. intros Hs. destruct s; cbn; rewrite Hs; reflexivity. Qed.

Lemma trimStart_suffix (s : string) : exists ws, s = ws ++ trimStart s.
Proof.
  induction s as [|c s [ws IH]]; cbn.
  - now exists "".
  - destruct (is_space c).
    + exists (String c ws). cbn. now rewrite <- IH.
    + now exists "".
Qed.

Lemma span_digits_app (s : string) : s = fst (span_digits s) ++ snd (span_digits s).
Proof.
  induction s as [|c s IH]; cbn; [reflexivity|].
  destruct (is_digit c); [|reflexivity].
  destruct (span_digits s) as [d rest]. cbn in *. now rewrite <- IH.
Qed.

Lemma lookahead_min_includes (s : string) :
  lookahead_min s = true -> includes (toLowerCase s) "min" = true.
Proof.
  unfold lookahead_min. intros Hm.
  destruct (trimStart_suffix s) as [ws Hs]. rewrite Hs at 1.
  rewrite toLowerCase_app. apply includes_app_r, includes_startsWith, Hm.
Qed.

Lemma match_digits_min_includes (s : string) (m : list string) :
  match_digits_min s = Some m -> includes (toLowerCase s) "min" = true.
Proof.
  induction s as [|c s IH]; [discriminate|].
  cbn [match_digits_min]. intros Hm.
  assert (Hrec : match_digits_min s = Some m -> includes (toLowerCase (String c s)) "min" = true).
  { intros Hs. change (String c s) with (String c "" ++ s).
    rewrite toLowerCase_app. apply includes_app_r, IH, Hs. }
  destruct (is_digit c); [|now apply Hrec].
  pose proof (span_digits_app (String c s)) as Happ.
  destruct (span_digits (String c s)) as [d rest]. cbn [fst snd] in Happ.
  destruct (lookahead_min rest) eqn:Hl; [|now apply Hrec].
  rewrite Happ, toLowerCase_app. apply includes_app_r, lookahead_min_includes, Hl.
Qed.

Lemma match_digits_none (s : string) :
  Keys.has_digit s = false -> match_digits s = None /\ match_digits_min s = None.
Proof.
  induction s as [|c s IH]; cbn; [intros _; split; reflexivity|].
  intros Hd. apply orb_false_iff in Hd as [Hc Hs]. rewrite Hc. now apply IH.
Qed.

Lemma match_digits_some (s : string) :
  Keys.has_digit s = true -> exists d, match_digits s = Some [d].
Proof.
  induction s as [|c s IH]; cbn; [discriminate|].
  destruct (is_digit c); [intros _; eexists; reflexivity | exact IH].
Qed.

(** X5.  A reading time in words that nowhere says "min" (in any case)
    gets no number from its digits: with a digit its sort key is [NaN],
    without one it is [MAX_SAFE_INTEGER]. *)
Theorem parseMinutes_without_min (s : string) :
  includes (toLowerCase s) "min" = false ->
  parseMinutes (Some (RTString s))
  = if Keys.has_digit s then NaN else Num MAX_SAFE_INTEGER.
Proof.
  intros Hno. unfold parseMinutes.
  assert (Hmin : match_digits_min s = None).
  { destruct (match_digits_min s) as [m|] eqn:Hm; [|reflexivity].
    apply match_digits_min_includes in Hm. congruence. }
  rewrite Hmin. cbn [or_match].
  destruct (Keys.has_digit s) eqn:Hd.
  - destruct (match_digits_some s Hd) as [d ->]. reflexivity.
  - destruct (match_digits_none s Hd) as [-> _]. reflexivity.
Qed.

(** *** Decimal numerals *)

Lemma digits_value_acc (u : Decimal.uint) (acc : positive) :
  digits_value (Zpos acc) (NilEmpty.string_of_uint u) = Zpos (Pos.of_uint_acc u acc).
Proof.
  revert acc. induction u; intros acc; cbn [NilEmpty.string_of_uint Pos.of_uint_acc];
    [reflexivity | ..];
    cbn [digits_value]; change (is_digit _) with true; cbv iota;
    rewrite <- IHu; f_equal;
    match goal with
    | |- context [digit_value ?c] =>
        let v := eval vm_compute in (digit_value c) in change (digit_value c) with v
    end; lia.
Qed.

Lemma digits_value_of_uint (u : Decimal.uint) :
  digits_value 0 (NilEmpty.string_of_uint u) = Z.of_N (Pos.of_uint u).
Proof.
  induction u; cbn [NilEmpty.string_of_uint Pos.of_uint];
    [reflexivity | ..];
    cbn [digits_value]; change (is_digit _) with true; cbv iota;
    [exact IHu | ..];
    cbn [Z.of_N]; rewrite <- digits_value_acc; f_equal.
Qed.

Lemma string_of_uint_digits (u : Decimal.uint) :
  u <> Decimal.Nil -> Keys.digit_run (NilEmpty.string_of_uint u).
Proof.
  induction u; intros Hne; [congruence | ..];
    cbn [NilEmpty.string_of_uint];
    (destruct u; [apply Keys.digit_run_one; reflexivity
                 | apply Keys.digit_run_more; [reflexivity | apply IHu; discriminate] ..]).
Qed.

Lemma number_toString_digits (n : Z) :
  0 <= n -> Keys.digit_run (number_toString n) /\ digits_value 0 (number_toString n) = n.
Proof.
  intros Hn. unfold number_toString.
  pose proof (DecimalZ.of_to n) as Hz.
  destruct n as [|p|p]; [| |lia].
  - split; [apply Keys.digit_run_one|]; reflexivity.
  - cbn [Z.to_int NilZero.string_of_int] in *.
    assert (Hne : Pos.to_uint p <> Decimal.Nil).
    { intros E. cbn [Z.of_int] in Hz. unfold Z.of_uint in Hz. rewrite E in Hz. discriminate. }
    unfold NilZero.string_of_uint.
    destruct (Pos.to_uint p) eqn:E; [congruence | ..];
      (split; [apply string_of_uint_digits; discriminate
              | rewrite digits_value_of_uint; exact Hz]).
Qed.

Lemma digit_facts (c : ascii) :
  is_digit c = true ->
  is_space c = false /\ lower c = c /\ c <> "m"%char /\ c <> "-"%char /\ c <> "+"%char.
Proof.
  destruct c as [[] [] [] [] [] [] [] []]; vm_compute; intros Hd;
    try discriminate Hd; repeat split; discriminate.
Qed.

Lemma span_digits_run (d rest : string) :
  Keys.digit_run d -> starts_with_digit rest = false ->
  span_digits (d ++ rest) = (d, rest).
Proof.
  intros Hd Hr. induction Hd as [c Hc | c s Hc Hs IH].
  - cbn [append span_digits]. rewrite Hc.
    destruct rest as [|c' rest]; [reflexivity|].
    cbn [span_digits]. cbn in Hr. now rewrite Hr.
  - cbn [append span_digits]. now rewrite Hc, IH.
Qed.

Lemma lookahead_min_no_digit (rest : string) :
  lookahead_min rest = true -> starts_with_digit rest = false.
Proof.
  unfold lookahead_min. destruct rest as [|c rest]; [reflexivity|].
  cbn [starts_with_digit]. destruct (is_digit c) eqn:Hc; [|reflexivity].
  destruct (digit_facts c Hc) as (Hs & Hl & Hm & _).
  cbn [trimStart]. rewrite Hs. cbn [toLowerCase startsWith]. rewrite Hl.
  intros Hmin. apply andb_true_iff in Hmin as [Hmin _].
  apply Ascii.eqb_eq in Hmin. congruence.
Qed.

Lemma match_digits_min_skip (p s : string) :
  Keys.has_digit p = false -> match_digits_min (p ++ s) = match_digits_min s.
Proof.
  induction p as [|c p IH]; [reflexivity|]. cbn [Keys.has_digit append match_digits_min].
  intros Hd. apply orb_false_iff in Hd as [Hc Hp]. rewrite Hc. now apply IH.
Qed.

Lemma match_digits_min_run (d rest : string) :
  Keys.digit_run d -> lookahead_min rest = true ->
  match_digits_min (d ++ rest) = Some [d; d].
Proof.
  intros Hd Hl.
  pose proof (span_digits_run d rest Hd (lookahead_min_no_digit rest Hl)) as Hs.
  destruct Hd as [c Hc | c s Hc Hd]; cbn [append] in *;
    cbn [match_digits_min]; rewrite Hc, Hs, Hl; reflexivity.
Qed.

Lemma parseInt_run (d : string) :
  Keys.digit_run d -> parseInt d = Num (digits_value 0 d).
Proof.
  intros Hd. unfold parseInt.
  assert (Hc : exists c r, d = String c r /\ is_digit c = true).
  { destruct Hd; eauto. }
  destruct Hc as (c & r & -> & Hc).
  destruct (digit_facts c Hc) as (Hs & _ & _ & Hminus & Hplus).
  cbn [trimStart]. rewrite Hs.
  destruct c as [[] [] [] [] [] [] [] []]; try congruence;
    cbn [starts_with_digit]; rewrite Hc; reflexivity.
Qed.

(** X6.  A reading time that says a number of minutes is read as that
    number: after any text without a digit, the decimal numeral of [n]
    followed (white space allowed) by "min" in any case gives the key [n]. *)
Theorem parseMinutes_reads_minutes (p rest : string) (n : Z) :
  0 <= n <= MAX_SAFE_INTEGER ->
  Keys.has_digit p = false ->
  lookahead_min rest = true ->
  parseMinutes (Some (RTString (p ++ number_toString n ++ rest))) = Num n.
Proof.
  intros [Hn _] Hp Hl. unfold parseMinutes.
  destruct (number_toString_digits n Hn) as [Hrun Hval].
  rewrite (match_digits_min_skip p _ Hp), (match_digits_min_run _ rest Hrun Hl).
  cbn [or_match group nth_error parseInt_arg].
  now rewrite (parseInt_run _ Hrun), Hval.
Qed.

(** *** Sessions *)

(** Breaks a computation into its parts, down to the writes to [this]. *)
Ltac frame_by R_refl R_trans :=
  repeat first
    [ progress intros
    | apply (preserves_bind _ R_trans)
    | apply (preserves_try_catch _ R_trans)
    | apply (preserves_ret _ R_refl)
    | apply (preserves_throw _ R_refl)
    | apply (preserves_get_this _ R_refl)
    | apply (preserves_get_browser _ R_refl)
    | apply (preserves_modify_browser _ R_refl)
    | apply preserves_modify_this
    | match goal with
      | |- Spec.preserves _ (match ?x with _ => _ end) => destruct x
      end ].

Section Sessions.
Context `{Host}.

Lemma view_only_refl (c : Component) : Session.view_only c c.
Proof. exists (listContainer c), (filteredItems c), (page c). now destruct c. Qed.

Lemma view_only_trans (a b c : Component) :
  Session.view_only a b -> Session.view_only b c -> Session.view_only a c.
Proof.
  intros (l1 & f1 & p1 & ->) (l2 & f2 & p2 & ->). exists l2, f2, p2. reflexivity.
Qed.

(** A single write to the view, the page or the content region. *)
Ltac view_leaf :=
  match goal with
  | |- Session.view_only ?c _ =>
      destruct c; eexists _, _, _;
      unfold set_listContainer, set_page, set_filteredItems; cbn; reflexivity
  end.

Lemma render_view_only : Spec.preserves Session.view_only render.
Proof.
  unfold render, set_list_innerHTML.
  frame_by view_only_refl view_only_trans; view_leaf.
Qed.

Lemma onSortChange_view_only (e : Event) : Spec.preserves Session.view_only (onSortChange e).
Proof.
  unfold onSortChange.
  frame_by view_only_refl view_only_trans; try apply render_view_only; view_leaf.
Qed.

Lemma onFilterChange_view_only (e : Event) : Spec.preserves Session.view_only (onFilterChange e).
Proof.
  unfold onFilterChange.
  frame_by view_only_refl view_only_trans; try apply render_view_only; view_leaf.
Qed.

Lemma onSearchInput_view_only (e : Event) : Spec.preserves Session.view_only (onSearchInput e).
Proof.
  unfold onSearchInput.
  frame_by view_only_refl view_only_trans;
    try apply render_view_only; try apply onFilterChange_view_only; view_leaf.
Qed.

Lemma handle_view_only (a : Session.Action) : Spec.preserves Session.view_only (Session.handle a).
Proof.
  destruct a; cbn [Session.handle].
  - apply onSortChange_view_only.
  - apply onFilterChange_view_only.
  - apply onSearchInput_view_only.
Qed.

Lemma render_browser (w : World) : browser (snd (render w)) = browser w.
Proof. apply render_frame. Qed.

Lemma onFilterChange_browser (e : Event) (w : World) :
  browser (snd (onFilterChange e w)) = browser w.
Proof.
  unfold onFilterChange. run.
  destruct (negb (truthy (toString (target_value e)))); cbn -[render];
    now rewrite render_browser.
Qed.

Lemma handle_browser (a : Session.Action) (w : World) :
  browser (snd (Session.handle a w)) = browser w.
Proof.
  destruct a as [e|e|e]; cbn [Session.handle].
  - unfold onSortChange. run. now rewrite render_browser.
  - apply onFilterChange_browser.
  - unfold onSearchInput.
    destruct (negb (truthy _)).
    + pose proof (onFilterChange_browser (mkEvent (filterSelect (this w))) w) as F.
      run. destruct (onFilterChange (mkEvent (filterSelect (this w))) w) as [[[]|err] w1];
        cbn [snd] in *; [|exact F].
      now rewrite render_browser.
    + run. cbn -[render]. now rewrite render_browser.
Qed.

Lemma filter_all {A : Type} (l : list A) : filter (fun _ => true) l = l.
Proof. induction l as [|x l IH]; cbn; [reflexivity | now rewrite IH]. Qed.

Lemma handle_selection (a : Session.Action) (w : World) :
  Session.selection (this w) -> Session.selection (this (snd (Session.handle a w))).
Proof.
  intros [f Hf]. unfold Session.selection.
  assert (Hfilter : forall e,
            exists g, filteredItems (this (snd (onFilterChange e w)))
                      = filter g (items (this w))).
  { intros e. destruct (onFilterChange_fields e w) as (_ & -> & _).
    destruct (negb (truthy (target_value e))); eexists; [|reflexivity].
    symmetry. apply filter_all. }
  destruct a as [e|e|e]; cbn [Session.handle].
  - destruct (onSortChange_fields e w) as (-> & -> & _).
    exists f. eapply perm_trans; [exact Hf | apply sort_permutation].
  - destruct (onFilterChange_fields e w) as (-> & _).
    destruct (Hfilter e) as [g ->]. now exists g.
  - destruct (onSearchInput_fields e w) as (-> & Hs & _). cbv zeta in Hs. rewrite Hs.
    destruct (negb (truthy _)).
    + destruct (Hfilter (mkEvent (filterSelect (this w)))) as [g ->]. now exists g.
    + eexists. reflexivity.
Qed.

(** What one gesture leaves alone. *)
Lemma deliver_keeps (g : Session.Gesture) (w : World) :
  let w' := Session.deliver g w in
  items (this w') = items (this w)
  /\ perPage (this w') = perPage (this w)
  /\ errorContainer (this w') = errorContainer (this w)
  /\ listeners (this w') = listeners (this w)
  /\ browser w' = browser w
  /\ Session.same_controls (this w) (this w').
Proof.
  cbv zeta. unfold Session.same_controls.
  destruct g as [v|v|v]; cbn [Session.deliver].
  - destruct (sortSelect (this w)) as [el|] eqn:Hc; [|rewrite ?Hc; repeat split; reflexivity].
    cbv zeta.
    match goal with |- context [Session.handle ?a ?w1] =>
      pose proof (handle_browser a w1) as Hb;
      destruct (handle_view_only a w1) as (lc & f & pg & Hv) end.
    rewrite Hv, Hb. cbn. rewrite ?Hc. repeat split; reflexivity.
  - destruct (filterSelect (this w)) as [el|] eqn:Hc; [|rewrite ?Hc; repeat split; reflexivity].
    cbv zeta.
    match goal with |- context [Session.handle ?a ?w1] =>
      pose proof (handle_browser a w1) as Hb;
      destruct (handle_view_only a w1) as (lc & f & pg & Hv) end.
    rewrite Hv, Hb. cbn. rewrite ?Hc. repeat split; reflexivity.
  - destruct (searchInput (this w)) as [el|] eqn:Hc; [|rewrite ?Hc; repeat split; reflexivity].
    cbv zeta.
    match goal with |- context [Session.handle ?a ?w1] =>
      pose proof (handle_browser a w1) as Hb;
      destruct (handle_view_only a w1) as (lc & f & pg & Hv) end.
    rewrite Hv, Hb. cbn. rewrite ?Hc. repeat split; reflexivity.
Qed.

Lemma deliver_selection (g : Session.Gesture) (w : World) :
  Session.selection (this w) -> Session.selection (this (Session.deliver g w)).
Proof.
  intros Hsel.
  destruct g as [v|v|v]; cbn [Session.deliver].
  - destruct (sortSelect (this w)); [|exact Hsel]. cbv zeta. apply handle_selection, Hsel.
  - destruct (filterSelect (this w)); [|exact Hsel]. cbv zeta. apply handle_selection, Hsel.
  - destruct (searchInput (this w)); [|exact Hsel]. cbv zeta. apply handle_selection, Hsel.
Qed.

Lemma dispatch_keeps (gestures : list Session.Gesture) (w : World) :
  let w' := Session.dispatch gestures w in
  items (this w') = items (this w)
  /\ perPage (this w') = perPage (this w)
  /\ errorContainer (this w') = errorContainer (this w)
  /\ listeners (this w') = listeners (this w)
  /\ browser w' = browser w
  /\ Session.same_controls (this w) (this w').
Proof.
  cbv zeta. revert w. induction gestures as [|g rest IH]; intros w; cbn [Session.dispatch].
  - unfold Session.same_controls. repeat split; reflexivity.
  - destruct (IH (Session.deliver g w)) as (-> & -> & -> & -> & -> & Hc1 & Hc2 & Hc3).
    destruct (deliver_keeps g w) as (-> & -> & -> & -> & -> & Hd1 & Hd2 & Hd3).
    unfold Session.same_controls.
    rewrite Hc1, Hc2, Hc3, Hd1, Hd2, Hd3. repeat split; reflexivity.
Qed.

Lemma dispatch_selection (gestures : list Session.Gesture) (w : World) :
  Session.selection (this w) -> Session.selection (this (Session.dispatch gestures w)).
Proof.
  revert w. induction gestures as [|g rest IH]; intros w Hsel; cbn [Session.dispatch].
  - exact Hsel.
  - apply IH, deliver_selection, Hsel.
Qed.

(** X7.  Through any session of sort, filter and search gestures, the
    fetched entries, the page size, the error region and the registered
    listeners stay as they were, nothing is written to storage and no
    request is sent, each control that was there is still there, and the
    view stays a selection of the fetched entries. *)
Theorem session_keeps_data (gestures : list Session.Gesture) (w : World) :
  Session.selection (this w) ->
  let w' := Session.dispatch gestures w in
  items (this w') = items (this w)
  /\ perPage (this w') = perPage (this w)
  /\ errorContainer (this w') = errorContainer (this w)
  /\ listeners (this w') = listeners (this w)
  /\ localStorage (browser w') = localStorage (browser w)
  /\ requests (browser w') = requests (browser w)
  /\ log (browser w') = log (browser w)
  /\ Session.same_controls (this w) (this w')
  /\ Session.selection (this w')
  /\ (List.length (filteredItems (this w')) <= List.length (items (this w)))%nat.
Proof.
  intros Hsel. cbv zeta.
  destruct (dispatch_keeps gestures w) as (Hi & Hp & He & Hl & Hb & Hc).
  pose proof (dispatch_selection gestures w Hsel) as Hs.
  rewrite Hp, He, Hl, Hb.
  refine (conj Hi (conj eq_refl (conj eq_refl (conj eq_refl (conj eq_refl
            (conj eq_refl (conj eq_refl (conj Hc (conj Hs _))))))))).
  destruct Hs as [f Hf]. rewrite <- (Permutation_length Hf), Hi. apply filter_length_le.
Qed.

(** The view after a filter gesture and after a search gesture. *)
Lemma deliver_filter_view (v : string) (w : World) :
  filterSelect (this w) <> None ->
  filteredItems (this (Session.deliver (Session.SelectFilter v) w))
  = Spec.filter_view v (items (this w))
  /\ Spec.selected (filterSelect (this (Session.deliver (Session.SelectFilter v) w))) = v.
Proof.
  intros Hc. cbn [Session.deliver].
  destruct (filterSelect (this w)) as [el|]; [clear Hc | congruence]. cbv zeta.
  cbn [Session.handle]. split.
  - rewrite onFilterChange_view. reflexivity.
  - destruct (onFilterChange_view_only
                (mkEvent (Some (Session.set_value v el)))
                (mkWorld (Session.set_filterSelect (Some (Session.set_value v el)) (this w))
                   (browser w))) as (lc & f & pg & ->).
    reflexivity.
Qed.

Lemma deliver_search_view (v : string) (w : World) :
  searchInput (this w) <> None ->
  filteredItems (this (Session.deliver (Session.TypeSearch v) w))
  = match toLowerCase (trim v) with
    | EmptyString => Spec.filter_view (Spec.selected (filterSelect (this w))) (items (this w))
    | q => Spec.search_view q (items (this w))
    end.
Proof.
  intros Hc. cbn [Session.deliver].
  destruct (searchInput (this w)) as [el|]; [clear Hc | congruence]. cbv zeta.
  cbn [Session.handle]. rewrite onSearchInput_view. reflexivity.
Qed.

(** X8.  A filter, and likewise a search, starts again from the fetched
    entries: whatever gestures came before, picking a filter value leaves
    the view that value selects from [items]; a search text leaves the
    view its query selects from [items]; and a search text that is empty
    once trimmed leaves the view of the value the filter control then
    holds, so that clearing the search box after picking a filter value
    brings back that filter's view. *)
Theorem filter_and_search_start_afresh
    (gestures : list Session.Gesture) (v : string) (w : World) :
  filterSelect (this w) <> None ->
  searchInput (this w) <> None ->
  let w1 := Session.dispatch gestures w in
  filteredItems (this (Session.deliver (Session.SelectFilter v) w1))
  = Spec.filter_view v (items (this w))
  /\ filteredItems (this (Session.deliver (Session.TypeSearch v) w1))
     = match toLowerCase (trim v) with
       | EmptyString =>
           Spec.filter_view (Spec.selected (filterSelect (this w1))) (items (this w))
       | q => Spec.search_view q (items (this w))
       end
  /\ (forall blank,
        toLowerCase (trim blank) = "" ->
        filteredItems
          (this (Session.deliver (Session.TypeSearch blank)
                   (Session.deliver (Session.SelectFilter v) w1)))
        = Spec.filter_view v (items (this w))).
Proof.
  intros Hf Hs. cbv zeta.
  destruct (dispatch_keeps gestures w) as (Hi & _ & _ & _ & _ & _ & Hcf & Hcs).
  set (w1 := Session.dispatch gestures w) in *.
  assert (Hf1 : filterSelect (this w1) <> None).
  { destruct (filterSelect (this w1)), (filterSelect (this w)); congruence || discriminate. }
  assert (Hs1 : searchInput (this w1) <> None).
  { destruct (searchInput (this w1)), (searchInput (this w)); congruence || discriminate. }
  destruct (deliver_filter_view v w1 Hf1) as [Hview Hsel].
  split; [|split].
  - now rewrite Hview, Hi.
  - now rewrite (deliver_search_view v w1 Hs1), Hi.
  - intros blank Hb.
    destruct (deliver_keeps (Session.SelectFilter v) w1) as (Hi2 & _ & _ & _ & _ & _ & _ & Hcs2).
    assert (Hs2 : searchInput (this (Session.deliver (Session.SelectFilter v) w1)) <> None).
    { destruct (searchInput (this (Session.deliver (Session.SelectFilter v) w1))),
        (searchInput (this w1)); congruence || discriminate. }
    rewrite (deliver_search_view blank _ Hs2), Hb, Hsel, Hi2, Hi. reflexivity.
Qed.

(** X9.  A sort works within the current view: sorting after a filter
    gives a rearrangement of what the filter selected, so it neither
    brings back a filtered-out entry nor loses a selected one. *)
Theorem sort_stays_within_filter (es ef : Event) (w : World) :
  Permutation
    (Spec.filter_view (Spec.selected (target ef)) (items (this w)))
    (filteredItems (this (snd (onSortChange es (snd (onFilterChange ef w)))))).
Proof.
  destruct (onSortChange_fields es (snd (onFilterChange ef w))) as (_ & -> & _).
  destruct (onFilterChange_fields ef w) as (_ & -> & _).
  rewrite <- target_value_selected, <- filtered_by_value.
  apply sort_permutation.
Qed.

(** X10.  The filter value counts up to case, and the search query up to
    case and surrounding white space. *)
Theorem values_count_up_to_case (e e' : Event) (w : World) :
  (toLowerCase (target_value e) = toLowerCase (target_value e') ->
   filteredItems (this (snd (onFilterChange e w)))
   = filteredItems (this (snd (onFilterChange e' w))))
  /\
  (toLowerCase (trim (target_value e)) = toLowerCase (trim (target_value e')) ->
   filteredItems (this (snd (onSearchInput e w)))
   = filteredItems (this (snd (onSearchInput e' w)))).
Proof.
  split; intros Heq.
  - destruct (onFilterChange_fields e w) as (_ & -> & _).
    destruct (onFilterChange_fields e' w) as (_ & -> & _).
    rewrite Heq.
    destruct (target_value e) as [|c v] eqn:E, (target_value e') as [|c' v'] eqn:E';
      try reflexivity; discriminate.
  - destruct (onSearchInput_fields e w) as (_ & Hf & _).
    destruct (onSearchInput_fields e' w) as (_ & Hf' & _).
    cbv zeta in Hf, Hf'. now rewrite Hf, Hf', Heq.
Qed.

(** X11.  After a search with the non-empty query [q] (trimmed and
    lower-cased), an entry is in view exactly when it is a fetched entry
    whose lower-cased title or content has [q] as a substring. *)
Theorem search_keeps_substring_matches (e : Event) (w : World) (it : BlogEntry) :
  let q := toLowerCase (trim (target_value e)) in
  q <> "" ->
  (In it (filteredItems (this (snd (onSearchInput e w)))) <->
   In it (items (this w)) /\
   ((exists a b, toLowerCase (or_empty (title it)) = a ++ q ++ b) \/
    (exists a b, toLowerCase (or_empty (content it)) = a ++ q ++ b))).
Proof.
  cbv zeta. intros Hq.
  destruct (onSearchInput_fields e w) as (_ & Hf & _). cbv zeta in Hf. rewrite Hf.
  destruct (toLowerCase (trim (target_value e))) as [|c q] eqn:Eq; [congruence|].
  cbn [truthy negb]. rewrite filter_In. unfold search_matches, toString.
  rewrite orb_true_iff, !includes_spec. reflexivity.
Qed.

End Sessions.

(** *** What a fetch leaves behind *)

Section VisitFacts.
Context `{Host}.

Lemma response_cases (r : Response) :
  (exists e, Spec.failure_of r = Some e) \/ (exists d, Spec.payload_of r = Some d).
Proof.
  destruct r as [e|[] [v|e]]; cbn; eauto. destruct v; cbn; eauto.
Qed.

Lemma attempt_body_adopts (w : World) (d : list BlogEntry) :
  Spec.payload_of (Spec.next_response w) = Some d ->
  attempt_body w = (Ok tt, Visits.adopted d w).
Proof.
  unfold Spec.next_response, Visits.adopted, Visits.cache_written, Visits.envelope_of,
    attempt_body, fetch, res_json, localStorage_setItem, Date_now. run.
  destruct (network (browser w) (requests (browser w))) as [e'|[] [v|e']]; cbn;
    try discriminate.
  destruct v; cbn; try discriminate. intros [= <-].
  destruct (accessible (localStorage (browser w)) && writable (localStorage (browser w)));
    cbn; [reflexivity|].
  destruct w as [c [st t net req lg]]; reflexivity.
Qed.

(** The ways the retry loop can end. *)
Lemma fetch_from_network_outcome (w : World) :
  (exists e, fetch_from_network w = (Throw e, Spec.after_fetch (Visits.third_try w)) /\
             Spec.failure_of (Spec.next_response (Visits.third_try w)) = Some e)
  \/
  (exists d w0,
     (w0 = w \/ w0 = Visits.second_try w \/ w0 = Visits.third_try w) /\
     Spec.payload_of (Spec.next_response w0) = Some d /\
     fetch_from_network w = (Ok tt, Visits.adopted d w0)).
Proof.
  unfold fetch_from_network. change (Z.to_nat maxAttempts) with 3%nat.
  rewrite retry_loop_step by (unfold maxAttempts; lia).
  destruct (response_cases (Spec.next_response w)) as [[e1 H1]|[d H1]].
  2:{ right. exists d, w. rewrite (attempt_body_adopts w d H1). auto. }
  rewrite (attempt_body_failure w e1 H1).
  change (1 <? maxAttempts) with true. cbv iota.
  change (300 * 1) with 300. change (1 + 1) with 2.
  fold (Visits.second_try w).
  rewrite retry_loop_step by (unfold maxAttempts; lia).
  destruct (response_cases (Spec.next_response (Visits.second_try w))) as [[e2 H2]|[d H2]].
  2:{ right. exists d, (Visits.second_try w).
      rewrite (attempt_body_adopts _ d H2). auto. }
  rewrite (attempt_body_failure _ e2 H2).
  change (2 <? maxAttempts) with true. cbv iota.
  change (300 * 2) with 600. change (2 + 1) with 3.
  fold (Visits.third_try w).
  rewrite retry_loop_step by (unfold maxAttempts; lia).
  destruct (response_cases (Spec.next_response (Visits.third_try w))) as [[e3 H3]|[d H3]].
  2:{ right. exists d, (Visits.third_try w).
      rewrite (attempt_body_adopts _ d H3). auto. }
  rewrite (attempt_body_failure _ e3 H3).
  change (3 <? maxAttempts) with false. cbv iota.
  left. exists e3. auto.
Qed.

(** The first [try] of [fetchData] either adopts cached entries, touching
    nothing else, or leaves the world as it was. *)
Lemma read_cache_cases (w : World) :
  (exists d,
     try_catch read_cache (fun _ => ret false) w
     = (Ok true, mkWorld (set_filteredItems d (set_items d (this w))) (browser w)))
  \/ try_catch read_cache (fun _ => ret false) w = (Ok false, w).
Proof.
  unfold read_cache, localStorage_getItem, parse, Date_now. run.
  destruct (accessible (localStorage (browser w))); cbn; [|now right].
  destruct (lookup cacheKey (entries (localStorage (browser w)))) as [s|]; cbn; [|now right].
  destruct (truthy s); [|now right].
  destruct (JSON_parse s) as [v|]; cbn; [|now right].
  destruct (value_truthy v); [|now right].
  destruct (isArray (get_prop v "data")) as [d|]; cbn; [|now right].
  destruct (ToNumber (get_prop v "timestamp") w) as [[ts|err] w1] eqn:Ets.
  - assert (w1 = w) as ->.
    { unfold ToNumber in Ets.
      destruct (get_prop v "timestamp") as [[| b | n | s0 | [|x l] | props]|];
        try (injection Ets as _ <-; reflexivity).
      destruct (lookup "toString" props); injection Ets as _ <-; reflexivity. }
    match goal with
    | |- context [if ?x then _ else _] => destruct x
    end; [left; now exists d | now right].
  - assert (w1 = w) as ->; [|now right].
    unfold ToNumber in Ets.
    destruct (get_prop v "timestamp") as [[| b | n | s0 | [|x l] | props]|];
      try discriminate Ets.
    destruct (lookup "toString" props); [injection Ets as _ <-; reflexivity | discriminate Ets].
Qed.

Lemma fetchData_cases (w : World) :
  (exists d,
     fetchData w = (Ok tt, mkWorld (set_filteredItems d (set_items d (this w))) (browser w)))
  \/ fetchData w = fetch_from_network w.
Proof.
  unfold fetchData, bind.
  destruct (read_cache_cases w) as [[d ->] | ->]; [left; now exists d | now right].
Qed.

(** Every way [fetchData] can end. *)
Lemma fetchData_outcome (w : World) :
  (exists d,
     fetchData w = (Ok tt, mkWorld (set_filteredItems d (set_items d (this w))) (browser w)))
  \/
  (exists e, fetchData w = (Throw e, Spec.after_fetch (Visits.third_try w)))
  \/
  (exists d w0,
     (w0 = w \/ w0 = Visits.second_try w \/ w0 = Visits.third_try w) /\
     fetchData w = (Ok tt, Visits.adopted d w0)).
Proof.
  destruct (fetchData_cases w) as [Hc | ->]; [now left | right].
  destruct (fetch_from_network_outcome w) as [(e & -> & _) | (d & w0 & Hw & _ & ->)].
  - left. now exists e.
  - right. now exists d, w0.
Qed.

(** X12.  Whatever the cache and the network do, one call of [fetchData]
    sends at most three requests and asks for waits of at most 900ms in
    all. *)
Theorem fetchData_effort_is_bounded (w : World) :
  exists done,
    log (browser (snd (fetchData w))) = (log (browser w) ++ done)%list
    /\ (Visits.fetches done <= 3)%nat
    /\ 0 <= Visits.slept done <= 900
    /\ requests (browser (snd (fetchData w)))
       = (requests (browser w) + Visits.fetches done)%nat.
Proof.
  destruct (fetchData_outcome w) as [(d & ->) | [(e & ->) | (d & w0 & Hw & ->)]].
  - exists []. cbn. rewrite app_nil_r, Nat.add_0_r.
    refine (conj eq_refl (conj _ (conj _ eq_refl))); lia.
  - eexists. cbn. rewrite <- !app_assoc. cbn.
    refine (conj eq_refl (conj _ (conj _ _))); cbn; lia.
  - destruct Hw as [-> | [-> | ->]]; eexists; cbn; rewrite <- ?app_assoc; cbn;
      (refine (conj eq_refl (conj _ (conj _ _))); cbn; lia).
Qed.

(** X13.  When [fetchData] throws, it has sent three requests and changed
    nothing the component or the storage holds. *)
Theorem fetchData_failure_adopts_nothing (w : World) (e : Error) :
  fst (fetchData w) = Throw e ->
  this (snd (fetchData w)) = this w
  /\ localStorage (browser (snd (fetchData w))) = localStorage (browser w)
  /\ requests (browser (snd (fetchData w))) = (requests (browser w) + 3)%nat.
Proof.
  destruct (fetchData_outcome w) as [(d & ->) | [(e' & ->) | (d & w0 & Hw & ->)]];
    cbn [fst]; try discriminate.
  intros _. cbn. repeat split; lia.
Qed.

(** X14.  When [fetchData] returns, [items] and [filteredItems] hold the
    same sequence. *)
Theorem fetchData_success_fills_both (w : World) :
  fst (fetchData w) = Ok tt ->
  filteredItems (this (snd (fetchData w))) = items (this (snd (fetchData w))).
Proof.
  destruct (fetchData_outcome w) as [(d & ->) | [(e' & ->) | (d & w0 & Hw & ->)]];
    cbn [fst]; try discriminate; intros _; reflexivity.
Qed.

(** Storage reads back what was stored, and a store leaves the other
    keys alone. *)
Lemma lookup_store_same {V : Type} (k : string) (v : V) (l : list (string * V)) :
  lookup k (store k v l) = Some v.
Proof.
  induction l as [|[k' v'] l IH]; cbn.
  - now rewrite String.eqb_refl.
  - destruct (String.eqb k k') eqn:E; cbn; [now rewrite String.eqb_refl | now rewrite E].
Qed.

Lemma lookup_store_other {V : Type} (k k' : string) (v : V) (l : list (string * V)) :
  k' <> k -> lookup k' (store k v l) = lookup k' l.
Proof.
  intros Hne. apply String.eqb_neq in Hne.
  induction l as [|[k0 v0] l IH]; cbn.
  - now rewrite Hne.
  - destruct (String.eqb k k0) eqn:E; cbn.
    + apply String.eqb_eq in E. subst k0. now rewrite Hne.
    + now rewrite IH.
Qed.

(** After a fetch that went to the network and returned, a usable storage
    holds the envelope of the adopted entries, stamped with the time of
    the write. *)
Lemma fetched_is_stored (w : World) :
  Spec.unusable_cache w ->
  fst (fetchData w) = Ok tt ->
  Visits.storage_open w ->
  let w1 := snd (fetchData w) in
  accessible (localStorage (browser w1)) = true /\
  lookup cacheKey (entries (localStorage (browser w1)))
  = Some (JSON_stringify (Visits.envelope_of (items (this w1)) (now (browser w1)))).
Proof.
  intros Hu Hok [Ha Hw]. cbv zeta.
  assert (E : fetchData w = fetch_from_network w).
  { unfold fetchData, bind. now rewrite (read_cache_unusable w Hu). }
  rewrite E in *.
  destruct (fetch_from_network_outcome w) as [(e & Ee & _) | (d & w0 & Hw0 & _ & Ed)].
  { rewrite Ee in Hok. discriminate Hok. }
  rewrite Ed. clear Hok E Ed.
  assert (Hst : localStorage (browser w0) = localStorage (browser w)).
  { destruct Hw0 as [-> | [-> | ->]]; reflexivity. }
  unfold Visits.adopted, Visits.cache_written. cbn [snd this browser localStorage now items
    set_filteredItems set_items].
  rewrite Hst, Ha, Hw. cbn. split; [reflexivity | apply lookup_store_same].
Qed.

(** X15.  The cache round trip: after a fetch that went to the network
    and returned, with a storage that can be used and a host whose
    [JSON.parse] reads back the envelope, any visit less than ten minutes
    later adopts the same entries and asks nothing of the network. *)
Theorem cache_serves_next_visit (w : World) (c : Component) (dt : Z) :
  Spec.unusable_cache w ->
  fst (fetchData w) = Ok tt ->
  Visits.storage_open w ->
  let w1 := snd (fetchData w) in
  Visits.round_trips (Visits.envelope_of (items (this w1)) (now (browser w1))) ->
  dt < 10 * 60 * 1000 ->
  let w2 := Visits.revisit c dt w1 in
  fst (fetchData w2) = Ok tt
  /\ items (this (snd (fetchData w2))) = items (this w1)
  /\ filteredItems (this (snd (fetchData w2))) = items (this w1)
  /\ browser (snd (fetchData w2)) = browser w2.
Proof.
  intros Hu Hok Hopen w1 [Hparse Hne] Hdt w2.
  destruct (fetched_is_stored w Hu Hok Hopen) as [Hacc Hst]. fold w1 in Hacc, Hst.
  assert (Hf : Spec.fresh_envelope w2 (items (this w1))).
  { eexists _, _, (now (browser w1)).
    split; [|split; [exact Hne | split; [exact Hparse|]]].
    - unfold Spec.stored, w2, Visits.revisit. cbn. now rewrite Hacc.
    - repeat split; try reflexivity. unfold w2, Visits.revisit. cbn. lia. }
  unfold fetchData, bind, try_catch. rewrite (read_cache_fresh w2 _ Hf). cbn.
  repeat split; reflexivity.
Qed.

(** X16.  In the same setting, a visit ten minutes later or more sends a
    request again. *)
Theorem cache_expires (w : World) (c : Component) (dt : Z) :
  Spec.unusable_cache w ->
  fst (fetchData w) = Ok tt ->
  Visits.storage_open w ->
  let w1 := snd (fetchData w) in
  Visits.round_trips (Visits.envelope_of (items (this w1)) (now (browser w1))) ->
  10 * 60 * 1000 <= dt ->
  let w2 := Visits.revisit c dt w1 in
  exists more,
    log (browser (snd (fetchData w2)))
    = (log (browser w1) ++ Fetch (apiUrl c) :: more)%list.
Proof.
  intros Hu Hok Hopen w1 [Hparse Hne] Hdt w2.
  destruct (fetched_is_stored w Hu Hok Hopen) as [Hacc Hst]. fold w1 in Hacc, Hst.
  assert (Hs : Spec.unusable_cache w2).
  { eapply Spec.cache_stale; [| exact Hparse | reflexivity |].
    - unfold Spec.stored, w2, Visits.revisit. cbn. now rewrite Hacc.
    - unfold w2, Visits.revisit. cbn. lia. }
  unfold fetchData, bind. rewrite (read_cache_unusable w2 Hs).
  apply (fetch_from_network_requests w2).
Qed.

(** X17.  [fetchData] writes no storage key but the cache key, and never
    changes whether storage can be read or written. *)
Theorem fetchData_writes_only_cache_key (w : World) (k : string) :
  k <> cacheKey ->
  let st := localStorage (browser w) in
  let st' := localStorage (browser (snd (fetchData w))) in
  lookup k (entries st') = lookup k (entries st)
  /\ accessible st' = accessible st
  /\ writable st' = writable st.
Proof.
  intros Hk. cbv zeta.
  destruct (fetchData_outcome w) as [(d & ->) | [(e & ->) | (d & w0 & Hw & ->)]];
    try (cbn; repeat split; reflexivity).
  assert (Hst : localStorage (browser w0) = localStorage (browser w)).
  { destruct Hw as [-> | [-> | ->]]; reflexivity. }
  unfold Visits.adopted, Visits.cache_written. cbn [snd browser localStorage].
  rewrite Hst.
  destruct (accessible (localStorage (browser w)) && writable (localStorage (browser w)));
    cbn; repeat split; try reflexivity.
  now apply lookup_store_other.
Qed.

End VisitFacts.

(** *** Initialisation, rendering and the debounce *)

Section InitFacts.
Context `{Host}.

Lemma render_ok (w : World) (el : Element) :
  listContainer (this w) = Some el ->
  render w
  = (Ok tt,
     mkWorld
       (set_listContainer
          (Some (set_innerHTML (Spec.markup (Spec.visible (this w))) el)) (this w))
       (browser w)).
Proof.
  intros Hl.
  unfold render, set_list_innerHTML, Spec.visible, Spec.markup, slice0. run.
  rewrite Hl. cbn. destruct (firstn _ _) as [|x l]; cbn; [|reflexivity].
  destruct w as [c b]. reflexivity.
Qed.

(** X18.  [render] needs the content region: without one it throws and
    changes nothing; with one it returns, writes only the region's markup,
    and doing it again changes nothing more. *)
Theorem render_needs_content_region (w : World) :
  match listContainer (this w) with
  | None => exists err, render w = (Throw err, w)
  | Some el =>
      render w
      = (Ok tt,
         mkWorld
           (set_listContainer
              (Some (set_innerHTML (Spec.markup (Spec.visible (this w))) el)) (this w))
           (browser w))
      /\ render (snd (render w)) = render w
  end.
Proof.
  destruct (listContainer (this w)) as [el|] eqn:Hl.
  - split; [now apply render_ok|].
    rewrite (render_ok w el Hl). cbn [snd].
    erewrite render_ok by reflexivity. reflexivity.
  - unfold render, set_list_innerHTML. run. rewrite Hl. eexists. reflexivity.
Qed.

(** [init], once [fetchData] has ended. *)
Lemma init_after_fetch (w w1 : World) (r : Result unit) :
  fetchData (snd (showLoading w)) = (r, w1) ->
  snd (init w)
  = snd (hideLoading
           (snd (match r with
                 | Ok _ => try_catch (setupEventListeners ;; render)
                             (fun err => showError err) w1
                 | Throw err => showError err w1
                 end))).
Proof.
  intros Hf. unfold init, try_finally.
  assert (E : try_catch (showLoading ;; fetchData ;; setupEventListeners ;; render)
                (fun err => showError err) w
              = match r with
                | Ok _ => try_catch (setupEventListeners ;; render)
                            (fun err => showError err) w1
                | Throw err => showError err w1
                end).
  { unfold try_catch at 1. unfold bind at 1. unfold showLoading at 1, modify_this at 1.
    unfold showLoading, modify_this in Hf. cbn [snd] in Hf.
    unfold bind at 1. rewrite Hf. destruct r as [[]|err]; reflexivity. }
  rewrite E.
  destruct (match r with Ok _ => _ | Throw err => _ end) as [r' wm].
  unfold hideLoading, modify_this. reflexivity.
Qed.



Lemma classList_remove_hidden (el : Element) : is_hidden (classList_remove "hidden" el) = false.
Proof.
  unfold is_hidden, classList_remove, array_includes, set_classList. cbn [classList].
  generalize "hidden" as k. intros k.
  induction (classList el) as [|c l IH]; cbn [filter existsb]; [reflexivity|].
  destruct (String.eqb k c) eqn:E; cbn [negb existsb]; [exact IH | now rewrite E].
Qed.

(** X20.  When [fetchData] throws, [init] registers no listener and
    leaves the entries and the content region as they were; the error
    region, where there is one, is shown with the error's message. *)
Theorem init_failure_shows_error (w w1 : World) (err : Error) :
  fetchData (snd (showLoading w)) = (Throw err, w1) ->
  let w' := snd (init w) in
  listeners (this w') = listeners (this w)
  /\ listContainer (this w') = listContainer (this w)
  /\ items (this w') = items (this w)
  /\ filteredItems (this w') = filteredItems (this w)
  /\ option_map textContent (errorContainer (this w'))
     = option_map (fun _ => "Error: " ++ message err) (errorContainer (this w))
  /\ option_map is_hidden (errorContainer (this w'))
     = option_map (fun _ => false) (errorContainer (this w)).
Proof.
  intros Hf. cbv zeta. rewrite (init_after_fetch w w1 _ Hf).
  assert (Hthis : this w1 = this (snd (showLoading w))).
  { destruct (fetchData_outcome (snd (showLoading w)))
      as [(d & E) | [(e & E) | (d & w0 & _ & E)]]; rewrite E in Hf; try discriminate Hf.
    injection Hf as _ <-. reflexivity. }
  unfold showLoading, modify_this in Hthis. cbn [snd this] in Hthis.
  clear Hf. destruct w1 as [c1 b1]. cbn [this] in Hthis. subst c1.
  unfold showError, hideLoading. run. cbn [errorContainer set_loadingIndicator].
  destruct (errorContainer (this w)) as [ec|] eqn:Hec;
    cbn -[classList_remove classList_add is_hidden append]; rewrite ?Hec;
    repeat split; try reflexivity.
  cbn [option_map]. f_equal.
  change (is_hidden (set_textContent ("Error: " ++ message err) (classList_remove "hidden" ec)))
    with (is_hidden (classList_remove "hidden" ec)).
  apply classList_remove_hidden.
Qed.






End InitFacts.

(** *** Witnesses of the further properties *)

Lemma sample_collation : @Keys.collation_order Sample.host.
Proof.
  split.
  - intros [|x a] [|y b]; cbn; lia.
  - intros [|x a] [|y b] [|z c]; cbn; lia.
Qed.

Lemma sort_by_reading_time_ascending_witness :
  StronglySorted (fun a b => Keys.minutes a <= Keys.minutes b)
    (filteredItems (this (snd (@onSortChange Sample.host (Fixtures.choose "reading_time")
                                 (Fixtures.viewing Fixtures.readable)))))
  /\ forall k,
       filter (fun it => Keys.minutes it =? k)
         (filteredItems (this (snd (@onSortChange Sample.host (Fixtures.choose "reading_time")
                                      (Fixtures.viewing Fixtures.readable)))))
       = filter (fun it => Keys.minutes it =? k)
           (filteredItems (this (Fixtures.viewing Fixtures.readable))).
Proof.
  apply (@sort_by_reading_time_ascending Sample.host); [reflexivity|].
  repeat constructor; discriminate.
Defined.

Lemma sort_by_date_newest_first_witness :
  StronglySorted (fun a b => @Keys.time Fixtures.dated_host b <= @Keys.time Fixtures.dated_host a)
    (filteredItems (this (snd (@onSortChange Fixtures.dated_host (Fixtures.choose "date")
                                 (Fixtures.viewing Fixtures.archive)))))
  /\ forall k,
       filter (fun it => @Keys.time Fixtures.dated_host it =? k)
         (filteredItems (this (snd (@onSortChange Fixtures.dated_host (Fixtures.choose "date")
                                      (Fixtures.viewing Fixtures.archive)))))
       = filter (fun it => @Keys.time Fixtures.dated_host it =? k)
           (filteredItems (this (Fixtures.viewing Fixtures.archive))).
Proof.
  apply (@sort_by_date_newest_first Fixtures.dated_host); [reflexivity|].
  repeat constructor; discriminate.
Defined.

Example sort_by_date_example :
  map title (filteredItems (this (snd (@onSortChange Fixtures.dated_host (Fixtures.choose "date")
                                         (Fixtures.viewing Fixtures.archive)))))
  = [Some "New"; Some "Mid"; Some "Old"].
Proof. reflexivity. Qed.

Lemma sort_by_category_ordered_witness :
  StronglySorted
    (fun a b => @localeCompare Sample.host (Keys.category_key a) (Keys.category_key b) <= 0)
    (filteredItems (this (snd (@onSortChange Sample.host (Fixtures.choose "category")
                                 Sample.loaded))))
  /\ forall k,
       filter (fun it => String.eqb (Keys.category_key it) k)
         (filteredItems (this (snd (@onSortChange Sample.host (Fixtures.choose "category")
                                      Sample.loaded))))
       = filter (fun it => String.eqb (Keys.category_key it) k)
           (filteredItems (this Sample.loaded)).
Proof.
  apply (@sort_by_category_ordered Sample.host); [apply sample_collation | reflexivity].
Defined.

Lemma sort_again_is_noop_witness :
  filteredItems (this (snd (@onSortChange Sample.host (Fixtures.choose "reading_time")
    (snd (@onSortChange Sample.host (Fixtures.choose "reading_time")
            (Fixtures.viewing Fixtures.readable))))))
  = filteredItems (this (snd (@onSortChange Sample.host (Fixtures.choose "reading_time")
                                (Fixtures.viewing Fixtures.readable)))).
Proof.
  apply (@sort_again_is_noop Sample.host). left. split; [reflexivity|].
  repeat constructor; discriminate.
Defined.

Lemma parseMinutes_without_min_witness :
  parseMinutes (Some (RTString "about 12")) = NaN
  /\ parseMinutes (Some (RTString "a while")) = Num MAX_SAFE_INTEGER.
Proof.
  split.
  - apply (parseMinutes_without_min "about 12"). reflexivity.
  - apply (parseMinutes_without_min "a while"). reflexivity.
Defined.

Lemma parseMinutes_reads_minutes_witness :
  parseMinutes (Some (RTString ("About " ++ number_toString 45 ++ " Min read"))) = Num 45.
Proof.
  apply (parseMinutes_reads_minutes "About " " Min read" 45); [|reflexivity..].
  unfold MAX_SAFE_INTEGER. lia.
Defined.

Lemma session_keeps_data_witness :
  items (this (@Session.dispatch Sample.host Fixtures.busy Sample.loaded)) = Sample.blogs
  /\ log (browser (@Session.dispatch Sample.host Fixtures.busy Sample.loaded)) = [].
Proof.
  destruct (@session_keeps_data Sample.host Fixtures.busy Sample.loaded)
    as (Hi & _ & _ & _ & _ & _ & Hlog & _).
  - exists (fun _ => true). apply Permutation_refl.
  - split; assumption.
Defined.

Example busy_session_view :
  filteredItems (this (@Session.dispatch Sample.host Fixtures.busy Sample.loaded))
  = [Sample.e12].
Proof. reflexivity. Qed.

(** After the busy session, picking Gadgets and then clearing the search
    box shows the Gadgets view. *)
Lemma filter_and_search_start_afresh_witness :
  filteredItems
    (this (@Session.deliver Sample.host (Session.TypeSearch "  ")
             (@Session.deliver Sample.host (Session.SelectFilter "Gadgets")
                (@Session.dispatch Sample.host Fixtures.busy Sample.loaded))))
  = [Sample.e5; Sample.e7].
Proof.
  apply (@filter_and_search_start_afresh Sample.host Fixtures.busy "Gadgets" Sample.loaded).
  - discriminate.
  - discriminate.
  - reflexivity.
Defined.

Lemma values_count_up_to_case_witness :
  filteredItems (this (snd (@onFilterChange Sample.host (Fixtures.choose "GADGETS") Sample.loaded)))
  = filteredItems (this (snd (@onFilterChange Sample.host (Fixtures.choose "gadgets") Sample.loaded)))
  /\ filteredItems (this (snd (@onSearchInput Sample.host (Fixtures.choose "  REACT ") Sample.loaded)))
     = filteredItems (this (snd (@onSearchInput Sample.host (Fixtures.choose "react") Sample.loaded))).
Proof.
  split.
  - apply (@values_count_up_to_case Sample.host). reflexivity.
  - apply (@values_count_up_to_case Sample.host). reflexivity.
Defined.

Lemma search_keeps_substring_matches_witness :
  In Sample.e5 (filteredItems (this (snd (@onSearchInput Sample.host (Fixtures.choose "Basic")
                                           Sample.loaded)))).
Proof.
  apply (@search_keeps_substring_matches Sample.host (Fixtures.choose "Basic") Sample.loaded).
  - discriminate.
  - split; [left; reflexivity|].
    left. exists "react ", "s". reflexivity.
Defined.

Lemma fetchData_failure_adopts_nothing_witness :
  this (snd (@fetchData Sample.host (Sample.uncached Sample.offline))) = Sample.component
  /\ localStorage (browser (snd (@fetchData Sample.host (Sample.uncached Sample.offline))))
     = localStorage (browser (Sample.uncached Sample.offline))
  /\ requests (browser (snd (@fetchData Sample.host (Sample.uncached Sample.offline)))) = 3%nat.
Proof.
  apply (@fetchData_failure_adopts_nothing Sample.host (Sample.uncached Sample.offline)
           Sample.failure).
  reflexivity.
Defined.

Lemma fetchData_success_fills_both_witness :
  filteredItems (this (snd (@fetchData Sample.host Fixtures.first_visit)))
  = items (this (snd (@fetchData Sample.host Fixtures.first_visit))).
Proof.
  apply (@fetchData_success_fills_both Sample.host). reflexivity.
Defined.

Lemma cache_serves_next_visit_witness :
  fst (@fetchData Sample.host
         (Visits.revisit Sample.component 599999 (snd (@fetchData Sample.host Fixtures.first_visit))))
  = Ok tt
  /\ items (this (snd (@fetchData Sample.host
         (Visits.revisit Sample.component 599999
            (snd (@fetchData Sample.host Fixtures.first_visit))))))
     = Sample.blogs
  /\ requests (browser (snd (@fetchData Sample.host
         (Visits.revisit Sample.component 599999
            (snd (@fetchData Sample.host Fixtures.first_visit))))))
     = 1%nat.
Proof.
  destruct (@cache_serves_next_visit Sample.host Fixtures.first_visit Sample.component 599999)
    as (Hok & Hi & _ & Hb).
  - apply Spec.cache_absent. reflexivity.
  - reflexivity.
  - split; reflexivity.
  - split; [reflexivity | discriminate].
  - reflexivity.
  - split; [exact Hok | split; [exact Hi | now rewrite Hb]].
Defined.

Lemma cache_expires_witness :
  exists more,
    log (browser (snd (@fetchData Sample.host
           (Visits.revisit Sample.component 600000
              (snd (@fetchData Sample.host Fixtures.first_visit))))))
    = ([Fetch Sample.url] ++ Fetch Sample.url :: more)%list.
Proof.
  apply (@cache_expires Sample.host Fixtures.first_visit Sample.component 600000).
  - apply Spec.cache_absent. reflexivity.
  - reflexivity.
  - split; reflexivity.
  - split; [reflexivity | discriminate].
  - reflexivity.
Defined.

Lemma fetchData_writes_only_cache_key_witness :
  lookup "theme"
    (entries (localStorage (browser (snd (@fetchData Sample.host
       (mkWorld Sample.component
          (Sample.browser_with [("theme", "dark")] 1000 (Sample.online_after 0))))))))
  = Some "dark".
Proof.
  apply (@fetchData_writes_only_cache_key Sample.host
           (mkWorld Sample.component
              (Sample.browser_with [("theme", "dark")] 1000 (Sample.online_after 0)))
           "theme").
  discriminate.
Defined.


Lemma init_failure_shows_error_witness :
  listeners (this (snd (@init Sample.host (Sample.uncached Sample.offline)))) = []
  /\ option_map textContent
       (errorContainer (this (snd (@init Sample.host (Sample.uncached Sample.offline)))))
     = Some "Error: Failed to fetch".
Proof.
  destruct (@init_failure_shows_error Sample.host (Sample.uncached Sample.offline)
              (snd (@fetchData Sample.host (snd (showLoading (Sample.uncached Sample.offline)))))
              Sample.failure eq_refl) as (Hl & _ & _ & _ & Ht & _).
  split; [exact Hl | exact Ht].
Defined.

